(** * Budsjett: the dashboard derivation layer and the owner-income save

    A shallow embedding of [client/src/pages/DashboardPage.jsx] and
    [client/src/pages/SettingsPage.jsx].  JavaScript numbers are IEEE 754
    binary64 values, modelled by Rocq's primitive floats; the scalar values
    of a JSON payload are modelled by [JS.value].  The parts of the
    repository that live outside these two files (expense aggregation,
    binding expirations, the savings summary) are modelled from their
    specification, over exact decimals. *)

From Stdlib Require Import Bool List String Ascii ZArith QArith Floats Lia.
From Stdlib Require Import Qround Permutation Sorted DecimalString.
Import ListNotations.

Close Scope Q_scope.
Local Open Scope string_scope.
Local Open Scope list_scope.

(** ** JavaScript scalars *)

Module JS.

(** The values a JSON field can hold as far as the pages inspect them:
    a missing field reads as [VUndefined]. *)
Inductive value : Type :=
| VUndefined
| VNull
| VBool (b : bool)
| VNum (x : float)
| VStr (s : string).

(** [v === null || v === undefined] *)
Definition isNullish (v : value) : bool :=
  match v with VUndefined | VNull => true | _ => false end.

(** [a ?? b] *)
Definition coalesce (a b : value) : value :=
  if isNullish a then b else a.

(** Truthiness of a number: everything but [+0], [-0] and [NaN]. *)
Definition truthy (x : float) : bool :=
  negb (PrimFloat.is_nan x || PrimFloat.is_zero x).

(** [x || d] on numbers *)
Definition or_else (x d : float) : float :=
  if truthy x then x else d.

(** [Number.isFinite] *)
Definition isFinite (x : float) : bool :=
  negb (PrimFloat.is_nan x || PrimFloat.is_infinity x).

(** [Number(v)].  The StringToNumber grammar of the language is not part of
    the repository: it is a parameter of the conversion. *)
Definition ToNumber (StringToNumber : string -> float) (v : value) : float :=
  match v with
  | VUndefined => PrimFloat.nan
  | VNull => 0%float
  | VBool true => 1%float
  | VBool false => 0%float
  | VNum x => x
  | VStr s => StringToNumber s
  end.

(** [String(v)], with the number formatter as a parameter. *)
Definition ToString (NumberToString : float -> string) (v : value) : string :=
  match v with
  | VUndefined => "undefined"
  | VNull => "null"
  | VBool true => "true"
  | VBool false => "false"
  | VNum x => NumberToString x
  | VStr s => s
  end.

(** [String.prototype.trim] is a parameter of the definitions that call
    it, as [StringToNumber] is.  What follows is a small instance, enough
    for names written in ASCII: it strips tab, line feed, vertical tab, form
    feed, carriage return and space. *)
Definition isWhiteSpace (c : ascii) : bool :=
  let n := nat_of_ascii c in
  ((9 <=? n)%nat && (n <=? 13)%nat) || (n =? 32)%nat.

Fixpoint asciiTrimStart (s : string) : string :=
  match s with
  | EmptyString => EmptyString
  | String c rest => if isWhiteSpace c then asciiTrimStart rest else s
  end.

Fixpoint asciiTrimEnd (s : string) : string :=
  match s with
  | EmptyString => EmptyString
  | String c rest =>
      match asciiTrimEnd rest with
      | EmptyString => if isWhiteSpace c then EmptyString else String c EmptyString
      | kept => String c kept
      end
  end.

Definition asciiTrim (s : string) : string :=
  asciiTrimEnd (asciiTrimStart s).

(** A small instance of the string conversion, enough for unsigned
    decimal integers: the empty string is [0], a string of digits is its
    value, anything else is [NaN]. *)
Definition digit_of (c : ascii) : option float :=
  let n := nat_of_ascii c in
  if (48 <=? n)%nat && (n <=? 57)%nat
  then Some (PrimFloat.of_uint63 (Uint63.of_Z (Z.of_nat (n - 48))))
  else None.

Fixpoint digits_from (acc : float) (s : string) : float :=
  match s with
  | EmptyString => acc
  | String c rest =>
      match digit_of c with
      | Some d => digits_from (acc * 10 + d)%float rest
      | None => PrimFloat.nan
      end
  end.

Definition decimalStringToNumber (s : string) : float :=
  digits_from 0%float s.

End JS.

Import JS.

(** ** Objects

    An object is kept as the list of its own enumerable properties, in the
    order [Object.entries] and [Object.keys] list them: the names that are
    array indices in ascending order, then the other names in the order
    they were created. *)

(** The value of a string of decimal digits. *)
Fixpoint digitsValue (acc : N) (s : string) : option N :=
  match s with
  | EmptyString => Some acc
  | String c rest =>
      let n := N_of_ascii c in
      if ((48 <=? n) && (n <=? 57))%N
      then digitsValue (acc * 10 + (n - 48)) rest
      else None
  end.

(** An array index: the canonical decimal form of an integer from [0] to
    [2^32 - 2]. *)
Definition arrayIndex (s : string) : option N :=
  match s with
  | EmptyString => None
  | String c rest =>
      if (N_of_ascii c =? 48)%N
      then match rest with EmptyString => Some 0%N | _ => None end
      else match digitsValue 0 s with
           | Some n => if (n <=? 4294967294)%N then Some n else None
           | None => None
           end
  end.

(** [object[key]] for an own property *)
Fixpoint getProperty {V : Type} (key : string) (object : list (string * V))
    : option V :=
  match object with
  | [] => None
  | (k, v) :: rest => if String.eqb k key then Some v else getProperty key rest
  end.

(** [Object.prototype.hasOwnProperty.call(object, key)] *)
Definition hasOwnProperty {V : Type} (object : list (string * V))
    (key : string) : bool :=
  existsb (fun entry => String.eqb (fst entry) key) object.

(** A new value for a property that is there: its place is kept. *)
Fixpoint updateProperty {V : Type} (key : string) (v : V)
    (object : list (string * V)) : list (string * V) :=
  match object with
  | [] => []
  | (k, old) :: rest =>
      if String.eqb k key then (k, v) :: rest
      else (k, old) :: updateProperty key v rest
  end.

(** A new property whose name is the array index [n]: it goes before the
    first property that is no array index or a greater one. *)
Fixpoint insertIndex {V : Type} (n : N) (key : string) (v : V)
    (object : list (string * V)) : list (string * V) :=
  match object with
  | [] => [(key, v)]
  | (k, old) :: rest =>
      match arrayIndex k with
      | Some m =>
          if (m <? n)%N then (k, old) :: insertIndex n key v rest
          else (key, v) :: object
      | None => (key, v) :: object
      end
  end.

(** Defining a data property, as the spread [{ ...object, [key]: v }]
    does: a property that is there gets the value, a new one takes its
    place in the order of the own keys. *)
Definition defineProperty {V : Type} (key : string) (v : V)
    (object : list (string * V)) : list (string * V) :=
  if hasOwnProperty object key then updateProperty key v object
  else match arrayIndex key with
       | Some n => insertIndex n key v object
       | None => object ++ [(key, v)]
       end.

(** The assignment [object[key] = text] of a string to a plain object:
    the name [__proto__], when it is no own property, reaches the setter of
    [Object.prototype], which leaves the object alone when the value is no
    object; any other name defines the property. *)
Definition assignProperty (key text : string) (object : list (string * string))
    : list (string * string) :=
  if String.eqb key "__proto__" && negb (hasOwnProperty object key)
  then object
  else defineProperty key text object.

(** The order of the own keys: an array index comes before a greater one
    and before every other name. *)
Definition keyBefore (k1 k2 : string) : Prop :=
  match arrayIndex k1, arrayIndex k2 with
  | Some m, Some n => (m <= n)%N
  | None, Some _ => False
  | _, None => True
  end.

Definition ownKeyOrder {V : Type} (object : list (string * V)) : Prop :=
  StronglySorted keyBefore (map fst object).

(** ** The summary payload *)

Record CategoryTotal : Type := {
  category : string;
  total : value;
  color : value
}.

Module Summary.

(** [fixedExpenseCategoryTotals] is [None] when the field is missing or
    null, the case [summary.fixedExpenseCategoryTotals || []] covers. *)
Record t : Type := {
  fixedExpenseCategoryTotals : option (list CategoryTotal);
  effectiveFixedExpenseTotal : value;
  fixedExpenseTotal : value;
  fixedExpensesTotal : value;
  activeMonthlyNetIncome : value;
  monthlyNetIncome : value;
  freeAfterFixed : value
}.

End Summary.

(** ** DashboardPage: the derived values *)

(** [summary.fixedExpenseCategoryTotals || []] *)
Definition fixedCategories (summary : Summary.t) : list CategoryTotal :=
  match Summary.fixedExpenseCategoryTotals summary with
  | Some items => items
  | None => []
  end.

(** [array.includes(label)], also [new Set(array).has(label)] *)
Definition includes (current : list string) (label : string) : bool :=
  existsb (String.eqb label) current.

(** The updater of the pruning effect:
    [current.filter(category =>
       fixedCategories.some(item => item.category === category))] *)
Definition pruneHiddenCategories
    (items : list CategoryTotal) (current : list string) : list string :=
  filter (fun c => existsb (fun item => String.eqb (category item) c) items)
         current.

(** [fixedCategories.filter(item => !hiddenCategorySet.has(item.category))] *)
Definition visibleCategoryTotals
    (items : list CategoryTotal) (hiddenCategories : list string)
    : list CategoryTotal :=
  filter (fun item => negb (includes hiddenCategories (category item))) items.

(** [summary.effectiveFixedExpenseTotal ?? summary.fixedExpenseTotal
     ?? summary.fixedExpensesTotal ?? 0] *)
Definition defaultFixedTotal (summary : Summary.t) : value :=
  coalesce
    (coalesce
       (coalesce (Summary.effectiveFixedExpenseTotal summary)
                 (Summary.fixedExpenseTotal summary))
       (Summary.fixedExpensesTotal summary))
    (VNum 0%float).

(** [activeMonthlyNetIncome]: [None] is the source's [null]. *)
Definition activeMonthlyNetIncome (summary : Summary.t) : option float :=
  match Summary.activeMonthlyNetIncome summary with
  | VNum x => Some x
  | _ =>
      match Summary.monthlyNetIncome summary with
      | VNum x => Some x
      | _ => None
      end
  end.

(** The state updater of [handleLegendClick]:
    [current.includes(label) ? current.filter(item => item !== label)
                             : [...current, label]] *)
Definition toggleUpdater (label : string) (current : list string)
    : list string :=
  if includes current label
  then filter (fun item => negb (String.eqb item label)) current
  else current ++ [label].

(** One legend click on [label]: an empty label returns early. *)
Definition toggle (label : string) (current : list string) : list string :=
  if String.eqb label "" then current else toggleUpdater label current.

(** [handleLegendClick]: the label is looked up in the chart's labels by
    the legend item's index; a missing label returns early too. *)
Definition handleLegendClick
    (labels : list string) (index : nat) (current : list string)
    : list string :=
  match nth_error labels index with
  | None => current
  | Some label => toggle label current
  end.

Section Dashboard.

Variable StringToNumber : string -> float.

(** The summand of the reduction: [Number(item.total) || 0] *)
Definition totalOf (item : CategoryTotal) : float :=
  or_else (ToNumber StringToNumber (total item)) 0%float.

(** [visible.reduce((sum, item) => sum + (Number(item.total) || 0), 0)] *)
Definition sumTotals (visible : list CategoryTotal) : float :=
  fold_left (fun sum item => (sum + totalOf item)%float) visible 0%float.

Definition visibleFixedTotal
    (summary : Summary.t) (hiddenCategories : list string) : value :=
  if (List.length (fixedCategories summary) =? 0)%nat
  then defaultFixedTotal summary
  else VNum (sumTotals
               (visibleCategoryTotals (fixedCategories summary)
                                      hiddenCategories)).

Definition visibleFreeAfterFixed
    (summary : Summary.t) (hiddenCategories : list string) : value :=
  if (List.length (fixedCategories summary) =? 0)%nat
  then coalesce (Summary.freeAfterFixed summary) (VNum 0%float)
  else
    match activeMonthlyNetIncome summary with
    | Some income =>
        VNum (income
              - ToNumber StringToNumber
                  (visibleFixedTotal summary hiddenCategories))%float
    | None => coalesce (Summary.freeAfterFixed summary) (VNum 0%float)
    end.

End Dashboard.

(** The invariant of the hidden list: every hidden label is the category of
    some item of the current totals. *)
Definition hiddenWithin
    (items : list CategoryTotal) (hiddenCategories : list string) : Prop :=
  forall c, In c hiddenCategories -> In c (map category items).

(** *** The forecast series *)

(** A calendar date as [Date] exposes it: [month] runs from 0 to 11. *)
Record Date : Type := {
  year : Z;
  month : Z;
  day : Z
}.

Definition isLeapYear (y : Z) : bool :=
  ((y mod 4 =? 0) && negb (y mod 100 =? 0) || (y mod 400 =? 0))%Z.

Definition daysInMonth (y m : Z) : Z :=
  if (m =? 1)%Z then (if isLeapYear y then 29 else 28)%Z
  else if ((m =? 3) || (m =? 5) || (m =? 8) || (m =? 10))%Z then 30%Z
  else 31%Z.

(** [date.setMonth(m)]: the month is carried into the year, the day of the
    month is kept, and a day past the end of the target month runs over into
    the month after it (the day of a real date is at most 31, so it runs
    over by at most one month). *)
Definition setMonth (date : Date) (m : Z) : Date :=
  let y := (year date + m / 12)%Z in
  let mn := (m mod 12)%Z in
  let dim := daysInMonth y mn in
  if (day date <=? dim)%Z
  then {| year := y; month := mn; day := day date |}
  else if (mn =? 11)%Z
       then {| year := y + 1; month := 0; day := day date - dim |}
       else {| year := y; month := mn + 1; day := day date - dim |}.

Record ForecastPoint (Label : Type) : Type := {
  label : Label;
  fixedCosts : value;
  availableAfterFixed : value
}.

Arguments label {Label} _.
Arguments fixedCosts {Label} _.
Arguments availableAfterFixed {Label} _.

(** [Array.from({ length: 12 }, (_, index) => ...)].  [today] is what
    [new Date()] returns; [toLocaleDateString] renders the year and the
    month of a date, the two fields its options select. *)
Definition monthlyForecast {Label : Type}
    (toLocaleDateString : Z -> Z -> Label) (today : Date)
    (visibleFixedTotal visibleFreeAfterFixed : value)
    : list (ForecastPoint Label) :=
  map (fun index =>
         let date := setMonth today (month today + Z.of_nat index) in
         {| label := toLocaleDateString (year date) (month date);
            fixedCosts := visibleFixedTotal;
            availableAfterFixed := visibleFreeAfterFixed |})
      (seq 0 12).

(** The calendar month [index] months after the month of [today]. *)
Definition monthAfter (today : Date) (index : nat) : Z * Z :=
  ((year today + (month today + Z.of_nat index) / 12)%Z,
   ((month today + Z.of_nat index) mod 12)%Z).

(** ** SettingsPage: saving the owner incomes *)

Module Settings.

Record OwnerProfile : Type := {
  name : string;
  monthlyNetIncome : float
}.

(** A profile as the settings service returns it. *)
Record ServerProfile : Type := {
  sp_name : string;
  sp_monthlyNetIncome : value
}.

(** How [api.updateSettings] settles. *)
Inductive response : Type :=
| Resolved (ownerProfiles : list ServerProfile)
| Rejected (message : string).

(** What [handleSaveOwners] does to the outside, in order. *)
Inductive effect : Type :=
| SetOwnerStatus (text : string)
| SetOwnerError (text : string)
| SetIsSavingOwners (flag : bool)
| UpdateSettings (ownerProfiles : list OwnerProfile)
| SetOwnerInputs (inputs : list (string * string)).

(** [refreshed[key] = text] *)
Definition assign (key text : string) (object : list (string * string))
    : list (string * string) :=
  assignProperty key text object.

(** The message of the error thrown for an amount that does not pass. *)
Definition invalidAmountMessage (trimmedName : string) : string :=
  ("Beløpet for " ++ trimmedName ++ " må være et ikke-negativt tall.")%string.

(** [err.message || 'Kunne ikke lagre inntekter.'] *)
Definition messageOr (message : string) : string :=
  if String.eqb message "" then "Kunne ikke lagre inntekter." else message.

Section Save.

Variable trim : string -> string.
Variable StringToNumber : string -> float.
Variable NumberToString : float -> string.

(** [.filter(([name]) => name.trim())] *)
Definition hasName (entry : string * value) : bool :=
  negb (String.eqb (trim (fst entry)) "").

(** [.filter(([, value]) =>
       value !== '' && value !== null && value !== undefined)] *)
Definition hasValue (entry : string * value) : bool :=
  match snd entry with
  | VStr s => negb (String.eqb s "")
  | VNull | VUndefined => false
  | _ => true
  end.

(** The callback of [.map]: [inl] is the message of the thrown error. *)
Definition toProfile (entry : string * value) : string + OwnerProfile :=
  let trimmedName := trim (fst entry) in
  let numericValue := ToNumber StringToNumber (snd entry) in
  if negb (isFinite numericValue) || (numericValue <? 0)%float
  then inl (invalidAmountMessage trimmedName)
  else inr {| name := trimmedName; monthlyNetIncome := numericValue |}.

(** [.map] with a callback that may throw: the first throw ends it. *)
Fixpoint mapProfiles (entries : list (string * value))
    : string + list OwnerProfile :=
  match entries with
  | [] => inr []
  | entry :: rest =>
      match toProfile entry with
      | inl message => inl message
      | inr profile =>
          match mapProfiles rest with
          | inl message => inl message
          | inr profiles => inr (profile :: profiles)
          end
      end
  end.

(** The entries that reach [.map]. *)
Definition remaining (ownerInputs : list (string * value))
    : list (string * value) :=
  filter hasValue (filter hasName ownerInputs).

Definition buildPayload (ownerInputs : list (string * value))
    : string + list OwnerProfile :=
  mapProfiles (remaining ownerInputs).

(** The inputs rebuilt from the service's answer. *)
Definition refresh (updated : list ServerProfile) : list (string * string) :=
  fold_left
    (fun refreshed profile =>
       if String.eqb (sp_name profile) "" then refreshed
       else assign (sp_name profile)
                   (ToString NumberToString
                      (coalesce (sp_monthlyNetIncome profile) (VStr "")))
                   refreshed)
    updated [].

(** [handleSaveOwners]: [ownerInputs] is [Object.entries(ownerInputs)],
    [updateSettings] says how the service call settles. *)
Definition handleSaveOwners
    (updateSettings : list OwnerProfile -> response)
    (ownerInputs : list (string * value)) : list effect :=
  [SetOwnerStatus ""; SetOwnerError ""; SetIsSavingOwners true]
  ++ match buildPayload ownerInputs with
     | inl message => [SetOwnerError (messageOr message)]
     | inr payload =>
         UpdateSettings payload
         :: match updateSettings payload with
            | Resolved updated =>
                [SetOwnerInputs (refresh updated);
                 SetOwnerStatus "Lagret personlige inntekter."]
            | Rejected message => [SetOwnerError (messageOr message)]
            end
     end
  ++ [SetIsSavingOwners false].

End Save.

(** The service calls among the effects. *)
Definition isUpdateSettings (e : effect) : bool :=
  match e with UpdateSettings _ => true | _ => false end.

(** A value that fails the check of [toProfile]: not a number, not finite,
    or negative. *)
Definition invalidValue (StringToNumber : string -> float) (v : value) : bool :=
  negb (isFinite (ToNumber StringToNumber v))
  || (ToNumber StringToNumber v <? 0)%float.

(** The profile [toProfile] builds from an entry that passes. *)
Definition profileOf (trim : string -> string)
    (StringToNumber : string -> float)
    (entry : string * value) : OwnerProfile :=
  {| name := trim (fst entry);
     monthlyNetIncome := ToNumber StringToNumber (snd entry) |}.

(** The service answers with the profiles it was sent. *)
Definition echo (payload : list OwnerProfile) : response :=
  Resolved (map (fun p => {| sp_name := name p;
                             sp_monthlyNetIncome := VNum (monthlyNetIncome p) |})
                payload).

End Settings.

(** ** The aggregation core behind the summary

    The aggregation of fixed expenses and the binding-expiration tracker
    run in the data service, and [summarizeSavingsGoals] lives in
    [utils/savings.js]; the pages only consume their results.  The
    definitions of this module follow the specification of these
    components. *)

Module Core.

Local Open Scope Q_scope.

(** Modelled from the spec: the decimal fields of the records of the data
    model (the records are declared outside the two pages); a field may
    hold a value that is not finite. *)
Inductive decimal : Type :=
| Dec (q : Q)
| NonFinite.

(** Modelled from the spec: the validity rule of the data model, which the
    missing aggregation code applies; an amount is excluded from sums if
    negative or non-finite. *)
Definition validAmount (d : decimal) : option Q :=
  match d with
  | Dec q => if Qle_bool 0 q then Some q else None
  | NonFinite => None
  end.

(** Modelled from the spec: what an amount adds to a sum in the missing
    summarizer, nothing when it is invalid. *)
Definition amountOrZero (d : decimal) : Q :=
  match validAmount d with Some q => q | None => 0 end.

(** Modelled from the spec: the binding end date of an expense record
    (the record is declared outside the two pages), optional, and parseable
    or not when present; a parsed date is a time in milliseconds. *)
Inductive bindingDate : Type :=
| NoDate
| Unparseable (text : string)
| EndsAt (time : Z).

(** Modelled from the spec: the FixedExpense record of the data model,
    declared outside the two pages. *)
Record FixedExpense : Type := {
  id : Z;
  name : string;
  category : string;
  level : string;
  amountPerMonth : decimal;
  owners : list string;
  bindingEndDate : bindingDate
}.

(** *** ExpenseAggregator *)

(** Modelled from the spec: the bucket of an expense in the missing
    ExpenseAggregator, with the sentinel bucket for an empty category. *)
Definition categoryKey (e : FixedExpense) : string :=
  if String.eqb (category e) "" then "Uncategorized" else category e.

(** Modelled from the spec: the level bucket of an expense in the missing
    ExpenseAggregator, with the sentinel bucket for an empty level. *)
Definition levelKey (e : FixedExpense) : string :=
  if String.eqb (level e) "" then "Unspecified" else level e.

(** Modelled from the spec: the step of the missing ExpenseAggregator that
    adds an amount to the running total of a bucket; a bucket seen for the
    first time goes last. *)
Fixpoint addTo (key : string) (q : Q) (totals : list (string * Q))
    : list (string * Q) :=
  match totals with
  | [] => [(key, q)]
  | (k, t) :: rest =>
      if String.eqb k key then (k, t + q) :: rest
      else (k, t) :: addTo key q rest
  end.

(** Modelled from the spec: the ExpenseAggregator, which runs in the data
    service; one pass over the expenses that returns the category totals
    and the level totals. *)
Definition aggregate (expenses : list FixedExpense)
    : list (string * Q) * list (string * Q) :=
  fold_left
    (fun totals e =>
       match validAmount (amountPerMonth e) with
       | Some q => (addTo (categoryKey e) q (fst totals),
                    addTo (levelKey e) q (snd totals))
       | None => totals
       end)
    expenses ([], []).

Definition categoryTotals (expenses : list FixedExpense) : list (string * Q) :=
  fst (aggregate expenses).

Definition levelTotals (expenses : list FixedExpense) : list (string * Q) :=
  snd (aggregate expenses).

(** The totals of one kind of bucket, on their own: what [aggregate] does
    to either component of its pair. *)
Definition bucketsFrom (keyOf : FixedExpense -> string)
    (expenses : list FixedExpense) (init : list (string * Q))
    : list (string * Q) :=
  fold_left
    (fun totals e =>
       match validAmount (amountPerMonth e) with
       | Some q => addTo (keyOf e) q totals
       | None => totals
       end)
    expenses init.

(** The running total of bucket [k], [0] when there is no such bucket. *)
Fixpoint lookupTotal (k : string) (totals : list (string * Q)) : Q :=
  match totals with
  | [] => 0
  | (k', t) :: rest => if String.eqb k' k then t else lookupTotal k rest
  end.

(** The sum of a list of decimals. *)
Definition sumQ (l : list Q) : Q := fold_right Qplus 0 l.

(** The valid monthly amounts of the expenses, in order. *)
Fixpoint validAmounts (expenses : list FixedExpense) : list Q :=
  match expenses with
  | [] => []
  | e :: rest =>
      match validAmount (amountPerMonth e) with
      | Some q => q :: validAmounts rest
      | None => validAmounts rest
      end
  end.

(** The valid monthly amounts of the expenses that fall in bucket [k]. *)
Definition amountsIn (keyOf : FixedExpense -> string) (k : string)
    (expenses : list FixedExpense) : list Q :=
  validAmounts (filter (fun e => String.eqb (keyOf e) k) expenses).

(** *** BindingExpirationTracker *)

(** Modelled from the spec: the BindingExpiration record, built by the
    missing BindingExpirationTracker. *)
Record BindingExpiration : Type := {
  expenseId : Z;
  expenseName : string;
  endDate : Z;
  daysLeft : Z;
  monthly : decimal
}.

(** Modelled from the spec: the length of a day in the time unit of the
    missing tracker, milliseconds. *)
Definition msPerDay : Z := 86400000.

(** Modelled from the spec: the window of the missing tracker, 90 days. *)
Definition windowDays : Z := 90.

(** Modelled from the spec: the days left as the missing tracker computes
    them, the floor of the difference in whole days. *)
Definition daysBetween (now endTime : Z) : Z := ((endTime - now) / msPerDay)%Z.

(** Modelled from the spec: the filter of the missing tracker, the record
    of an expense whose date parses and whose days left fall in the
    window. *)
Definition expirationOf (now : Z) (e : FixedExpense)
    : option BindingExpiration :=
  match bindingEndDate e with
  | EndsAt t =>
      let d := daysBetween now t in
      if ((0 <=? d) && (d <=? windowDays))%Z
      then Some {| expenseId := id e; expenseName := name e; endDate := t;
                   daysLeft := d; monthly := amountPerMonth e |}
      else None
  | _ => None
  end.

(** Modelled from the spec: the records the missing tracker keeps, in the
    order of the expenses. *)
Fixpoint candidates (now : Z) (expenses : list FixedExpense)
    : list BindingExpiration :=
  match expenses with
  | [] => []
  | e :: rest =>
      match expirationOf now e with
      | Some r => r :: candidates now rest
      | None => candidates now rest
      end
  end.

(** Modelled from the spec: the order of the missing tracker, ascending by
    days left, ties by name in case-sensitive lexicographic order. *)
Definition comesBefore (a b : BindingExpiration) : bool :=
  ((daysLeft a <? daysLeft b)%Z
   || ((daysLeft a =? daysLeft b)%Z
       && String.leb (expenseName a) (expenseName b)))%bool.

(** Modelled from the spec: the sort of the missing tracker, as a stable
    insertion sort. *)
Fixpoint insertSorted (x : BindingExpiration) (l : list BindingExpiration)
    : list BindingExpiration :=
  match l with
  | [] => [x]
  | y :: rest =>
      if comesBefore x y then x :: l else y :: insertSorted x rest
  end.

(** Modelled from the spec: the sort of the missing tracker, over the
    whole list. *)
Definition sortExpirations (l : list BindingExpiration)
    : list BindingExpiration :=
  fold_right insertSorted [] l.

(** Modelled from the spec: the BindingExpirationTracker, which runs in
    the data service. *)
Definition bindingExpirations (now : Z) (expenses : list FixedExpense)
    : list BindingExpiration :=
  sortExpirations (candidates now expenses).

(** *** SavingsGoalSummarizer *)

(** Modelled from the spec: the SavingsGoal record, declared in the missing
    [utils/savings.js]. *)
Record SavingsGoal : Type := {
  goalId : Z;
  goalName : string;
  targetAmount : decimal;
  savedAmount : decimal
}.

(** Modelled from the spec: the statistics object that
    [summarizeSavingsGoals] of the missing [utils/savings.js] returns. *)
Record SavingsStats : Type := {
  goalCount : nat;
  totalSaved : Q;
  totalTarget : Q;
  avgProgress : Z
}.

(** Modelled from the spec: the rounding of the missing summarizer, to
    the nearest integer, halves upwards. *)
Definition round (q : Q) : Z := Qfloor (q + (1 # 2)).

(** Modelled from the spec: the progress percentage of the missing
    summarizer, [0] without goals or without a target. *)
Definition progressOf (count : nat) (saved target : Q) : Z :=
  if ((count =? 0)%nat || Qeq_bool target 0)%bool then 0%Z
  else round (100 * saved / target).

(** Modelled from the spec: [summarizeSavingsGoals] of the missing
    [utils/savings.js], one pass over the goals. *)
Definition summarizeSavingsGoals (goals : list SavingsGoal) : SavingsStats :=
  let acc :=
    fold_left
      (fun acc g =>
         (S (fst (fst acc)),
          snd (fst acc) + amountOrZero (savedAmount g),
          snd acc + amountOrZero (targetAmount g)))
      goals (0%nat, 0, 0) in
  {| goalCount := fst (fst acc);
     totalSaved := snd (fst acc);
     totalTarget := snd acc;
     avgProgress := progressOf (fst (fst acc)) (snd (fst acc)) (snd acc) |}.

(** The valid values of one field of the goals, in order. *)
Fixpoint validOf (field : SavingsGoal -> decimal) (goals : list SavingsGoal)
    : list Q :=
  match goals with
  | [] => []
  | g :: rest =>
      match validAmount (field g) with
      | Some q => q :: validOf field rest
      | None => validOf field rest
      end
  end.

(** The order of the result, as a relation. *)
Definition before (a b : BindingExpiration) : Prop :=
  (daysLeft a < daysLeft b)%Z
  \/ (daysLeft a = daysLeft b
      /\ String.leb (expenseName a) (expenseName b) = true).

End Core.

(** ** DashboardPage: the chart and its legend *)

(** The truthiness of a scalar. *)
Definition truthyValue (v : value) : bool :=
  match v with
  | VUndefined | VNull => false
  | VBool b => b
  | VNum x => truthy x
  | VStr s => negb (String.eqb s "")
  end.

(** The [data] of the doughnut chart. *)
Record DoughnutData : Type := {
  dd_labels : list string;
  dd_data : list value;
  dd_backgroundColor : list value
}.

(** [doughnutData]: [None] is the source's [null]. *)
Definition doughnutData (items : list CategoryTotal) : option DoughnutData :=
  if (0 <? List.length items)%nat
  then Some {| dd_labels := map category items;
               dd_data := map total items;
               dd_backgroundColor :=
                 map (fun item => if truthyValue (color item)
                                  then color item else VStr "#94a3b8")
                     items |}
  else None.

(** A length as a template literal prints it. *)
Definition lengthToString (n : nat) : string :=
  NilZero.string_of_uint (Nat.to_uint n).

(** [categoryBadgeText] *)
Definition categoryBadgeText
    (items : list CategoryTotal) (hiddenCategories : list string) : string :=
  if (0 <? List.length items)%nat
  then if (0 <? List.length hiddenCategories)%nat
       then (lengthToString
               (List.length (visibleCategoryTotals items hiddenCategories))
             ++ "/" ++ lengthToString (List.length items)
             ++ " kategorier")%string
       else (lengthToString (List.length items) ++ " kategorier")%string
  else "".

(** The chart keeps, for every data index, whether it is visible:
    [chart.getDataVisibility(index)].  [chart.toggleDataVisibility(index)]
    flips the entry of that index. *)
Definition toggleDataVisibility (visible : nat -> bool) (index : nat)
    : nat -> bool :=
  fun i => if (i =? index)%nat then negb (visible i) else visible i.

(** The callback of [labels.forEach((label, index) => ...)] in the effect
    that brings the chart in line with the hidden list; the second
    component is [needsUpdate]. *)
Definition syncStep (hiddenCategories : list string)
    (chart : (nat -> bool) * bool) (entry : nat * string)
    : (nat -> bool) * bool :=
  let shouldHide := includes hiddenCategories (snd entry) in
  let isVisible := fst chart (fst entry) in
  if Bool.eqb shouldHide isVisible
  then (toggleDataVisibility (fst chart) (fst entry), true)
  else chart.

(** The loop over the labels from index [start] on. *)
Definition syncFrom (hiddenCategories : list string) (start : nat)
    (labels : list string) (chart : (nat -> bool) * bool)
    : (nat -> bool) * bool :=
  fold_left (syncStep hiddenCategories)
            (combine (seq start (List.length labels)) labels) chart.

(** The effect on an existing chart: the visibility after it, and whether
    [chart.update()] is called. *)
Definition syncChart (labels hiddenCategories : list string)
    (visible : nat -> bool) : (nat -> bool) * bool :=
  syncFrom hiddenCategories 0 labels (visible, false).

(** What [handleLegendClick] does to the chart itself: nothing on an early
    return, else [legend.chart.toggleDataVisibility(legendItem.index)]. *)
Definition legendClickChart
    (labels : list string) (index : nat) (visible : nat -> bool)
    : nat -> bool :=
  match nth_error labels index with
  | None => visible
  | Some label =>
      if String.eqb label "" then visible
      else toggleDataVisibility visible index
  end.

(** The chart shows what the hidden list says, on every label. *)
Definition chartInLine (labels hiddenCategories : list string)
    (visible : nat -> bool) : Prop :=
  forall i label,
    nth_error labels i = Some label ->
    visible i = negb (includes hiddenCategories label).

(** A session of legend clicks on a chart with the given labels, from the
    initial empty hidden list. *)
Definition clicks (labels : list string) (indices : list nat) : list string :=
  fold_left (fun current index => handleLegendClick labels index current)
            indices [].

(** The [data] of the line chart. *)
Record LineData (Label : Type) : Type := {
  ld_labels : list Label;
  ld_fixedCosts : list value;
  ld_availableAfterFixed : list value
}.

Arguments ld_labels {Label} _.
Arguments ld_fixedCosts {Label} _.
Arguments ld_availableAfterFixed {Label} _.

(** [lineData] *)
Definition lineData {Label : Type} (monthlyForecast : list (ForecastPoint Label))
    : LineData Label :=
  {| ld_labels := map label monthlyForecast;
     ld_fixedCosts := map fixedCosts monthlyForecast;
     ld_availableAfterFixed := map availableAfterFixed monthlyForecast |}.

(** ** The application shell: theme and install prompt *)

(** [getInitialTheme]: [hasWindow] is [typeof window !== 'undefined'],
    [stored] is what [localStorage.getItem('budsjett-theme')] returns,
    [prefersDark] is whether the colour-scheme media query exists and
    matches. *)
Definition getInitialTheme
    (hasWindow : bool) (stored : option string) (prefersDark : bool) : string :=
  if negb hasWindow then "light"
  else
    match stored with
    | Some s =>
        if String.eqb s "light" || String.eqb s "dark" then s
        else if prefersDark then "dark" else "light"
    | None => if prefersDark then "dark" else "light"
    end.

(** The updater of [toggleTheme] *)
Definition toggleTheme (prev : string) : string :=
  if String.eqb prev "light" then "dark" else "light".

(** The effect keyed on [theme]: what [localStorage] holds under
    ['budsjett-theme'] after it. *)
Definition persistTheme (theme : string) : option string := Some theme.

(** The install state of the shell: whether a prompt event is held, and
    whether the app counts as installed. *)
Record InstallState : Type := {
  installPromptEvent : bool;
  isInstalled : bool
}.

Definition handleBeforeInstallPrompt (st : InstallState) : InstallState :=
  {| installPromptEvent := true; isInstalled := isInstalled st |}.

Definition handleAppInstalled (st : InstallState) : InstallState :=
  {| installPromptEvent := false; isInstalled := true |}.

(** [checkStandalone]: [standalone] is
    [Boolean(window.navigator.standalone) || media query matches]. *)
Definition checkStandalone (standalone : bool) (st : InstallState)
    : InstallState :=
  {| installPromptEvent := installPromptEvent st; isInstalled := standalone |}.

(** [handleInstallClick]: [accepted] is whether the user's choice is
    ['accepted'].  Returns the state and whether [prompt()] was called. *)
Definition handleInstallClick (accepted : bool) (st : InstallState)
    : InstallState * bool :=
  if negb (installPromptEvent st) then (st, false)
  else if accepted
       then ({| installPromptEvent := false; isInstalled := true |}, true)
       else (st, true).

(** Whether the install button is rendered. *)
Definition showInstallButton (st : InstallState) : bool :=
  negb (isInstalled st) && installPromptEvent st.

(** The events of the shell that touch the install state. *)
Inductive installEvent : Type :=
| BeforeInstallPrompt
| AppInstalled
| InstallClick (accepted : bool).

Definition installStep (st : InstallState) (e : installEvent) : InstallState :=
  match e with
  | BeforeInstallPrompt => handleBeforeInstallPrompt st
  | AppInstalled => handleAppInstalled st
  | InstallClick accepted => fst (handleInstallClick accepted st)
  end.

(** ** SettingsPage: the owner form *)


(** [handleOwnerIncomeChange]: [{ ...current, [name]: value }] *)
Definition handleOwnerIncomeChange (owner text : string)
    (current : list (string * value)) : list (string * value) :=
  defineProperty owner (VStr text) current.

(** The value of the input of an owner: [ownerInputs[name] ?? ''] *)
Definition inputValue (ownerInputs : list (string * value)) (owner : string)
    : value :=
  coalesce (match getProperty owner ownerInputs with
            | Some v => v
            | None => VUndefined
            end)
           (VStr "").

(** The part of the page's state that [handleAddOwner] touches. *)
Record OwnerForm : Type := {
  of_ownerInputs : list (string * value);
  of_newOwnerName : string;
  of_ownerStatus : string;
  of_ownerError : string
}.

(** [handleAddOwner] *)
Definition handleAddOwner (trim : string -> string) (form : OwnerForm)
    : OwnerForm :=
  let trimmed := trim (of_newOwnerName form) in
  if String.eqb trimmed ""
  then {| of_ownerInputs := of_ownerInputs form;
          of_newOwnerName := of_newOwnerName form;
          of_ownerStatus := "";
          of_ownerError := "Skriv inn et navn." |}
  else {| of_ownerInputs :=
            if hasOwnProperty (of_ownerInputs form) trimmed
            then of_ownerInputs form
            else defineProperty trimmed (VStr "") (of_ownerInputs form);
          of_newOwnerName := "";
          of_ownerStatus := "";
          of_ownerError := "" |}.

(** [set.add(name)] on a set kept as the list of its members in insertion
    order. *)
Definition addName (names : list string) (n : string) : list string :=
  if includes names n then names else names ++ [n].

(** [names.forEach(name => { if (name?.trim()) set.add(name) })] *)
Definition addNamed (trim : string -> string)
    (names : list string) (candidates : list string) : list string :=
  fold_left
    (fun set n => if String.eqb (trim n) "" then set else addName set n)
    candidates names.

(** The set [ownerNames] sorts: the owners found in the expenses, the keys
    of the inputs, and the trimmed default owner. *)
Definition ownerNameSet (trim : string -> string)
    (ownersFromExpenses : list string)
    (ownerInputs : list (string * value)) (defaultOwner : string)
    : list string :=
  let names :=
    addNamed trim (addNamed trim [] ownersFromExpenses)
             (map fst ownerInputs) in
  if String.eqb (trim defaultOwner) "" then names
  else addName names (trim defaultOwner).

(** [ownerNames]: [sortNames] is [.sort((a, b) => a.localeCompare(b, 'no'))]. *)
Definition ownerNames (trim : string -> string)
    (sortNames : list string -> list string)
    (ownersFromExpenses : list string)
    (ownerInputs : list (string * value)) (defaultOwner : string)
    : list string :=
  sortNames (ownerNameSet trim ownersFromExpenses ownerInputs defaultOwner).

(** The owners [fetchOwners] stores: the [owners] field of an expense is
    [None] when it is not an array; [.filter(Boolean)] drops the empty
    names, the set drops the repeats. *)
Definition ownersOfExpenses (sortNames : list string -> list string)
    (fixedExpenses : list (option (list string))) : list string :=
  sortNames
    (fold_left addName
       (filter (fun n => negb (String.eqb n ""))
               (flat_map (fun owners => match owners with
                                        | Some l => l
                                        | None => []
                                        end)
                         fixedExpenses))
       []).

(** How the settings service answers [handleSetDefaultOwner]. *)
Inductive defaultResponse : Type :=
| DefaultResolved (defaultFixedExpensesOwner : value)
| DefaultRejected (message : string).

Inductive defaultEffect : Type :=
| SetDefaultOwnerStatus (text : string)
| SetDefaultOwnerError (text : string)
| SetIsUpdatingDefaultOwner (flag : bool)
| UpdateDefaultOwner (defaultFixedExpensesOwner : string)
| SetDefaultOwner (owner : string).

(** [handleSetDefaultOwner] *)
Definition handleSetDefaultOwner
    (updateSettings : string -> defaultResponse) (owner : string)
    : list defaultEffect :=
  [SetDefaultOwnerStatus ""; SetDefaultOwnerError "";
   SetIsUpdatingDefaultOwner true; UpdateDefaultOwner owner]
  ++ match updateSettings owner with
     | DefaultResolved updated =>
         [SetDefaultOwner (match updated with VStr s => s | _ => "" end);
          SetDefaultOwnerStatus
            (if String.eqb owner "" then "Standardvisning fjernet."
             else (owner ++ " er satt som standard for Faste utgifter.")%string)]
     | DefaultRejected message =>
         [SetDefaultOwnerError
            (if String.eqb message ""
             then "Kunne ikke oppdatere standardvisningen." else message)]
     end
  ++ [SetIsUpdatingDefaultOwner false].

(** What is shown as the default owner after a run, given what was shown
    before: the last [SetDefaultOwner] wins. *)
Definition defaultOwnerAfter (before : string) (effects : list defaultEffect)
    : string :=
  fold_left (fun shown e => match e with
                            | SetDefaultOwner owner => owner
                            | _ => shown
                            end)
            effects before.

Inductive importEffect (Json : Type) : Type :=
| SetStatus (text : string)
| ImportData (json : Json).

Arguments SetStatus {Json} _.
Arguments ImportData {Json} _.

(** How [file.text()] settles. *)
Inductive fileRead : Type :=
| ReadGives (text : string)
| ReadFails.

(** [handleImport]: [file] is the chosen file if there is one, with how the
    reading of its text settles; that reading is awaited before the [try],
    so when it fails the handler ends there.  [parse] is [JSON.parse]
    ([inl] the message of its error), [importData] says how the service
    call settles ([Some] the message of a rejection). *)
Definition handleImport {Json : Type}
    (parse : string -> string + Json) (importData : Json -> option string)
    (file : option fileRead) : list (importEffect Json) :=
  match file with
  | None => [SetStatus "Velg en fil først."]
  | Some ReadFails => []
  | Some (ReadGives text) =>
      match parse text with
      | inl message => [SetStatus ("Import feilet: " ++ message)%string]
      | inr json =>
          ImportData json
          :: match importData json with
             | None =>
                 [SetStatus
                    "Import fullført! Last siden på nytt for å se endringene."]
             | Some message =>
                 [SetStatus ("Import feilet: " ++ message)%string]
             end
      end
  end.

(** ** Sample data *)

Definition catA : CategoryTotal :=
  {| category := "A"; total := VNum 100%float; color := VUndefined |}.

Definition catB : CategoryTotal :=
  {| category := "B"; total := VNum 50%float; color := VUndefined |}.

(** A summary over [items] with the given income and free-after-fixed
    fields, and a fixed-expense total of 150 under one of its aliases. *)
Definition summaryOf (items : option (list CategoryTotal))
    (income free : value) : Summary.t :=
  {| Summary.fixedExpenseCategoryTotals := items;
     Summary.effectiveFixedExpenseTotal := VUndefined;
     Summary.fixedExpenseTotal := VNum 150%float;
     Summary.fixedExpensesTotal := VUndefined;
     Summary.activeMonthlyNetIncome := income;
     Summary.monthlyNetIncome := VUndefined;
     Summary.freeAfterFixed := free |}.

Definition summaryAB (income free : value) : Summary.t :=
  summaryOf (Some [catA; catB]) income free.

(** A summary whose only income figure is the aggregate field. *)
Definition summaryAggregateIncome : Summary.t :=
  {| Summary.fixedExpenseCategoryTotals := Some [catA; catB];
     Summary.effectiveFixedExpenseTotal := VUndefined;
     Summary.fixedExpenseTotal := VNum 150%float;
     Summary.fixedExpensesTotal := VUndefined;
     Summary.activeMonthlyNetIncome := VNull;
     Summary.monthlyNetIncome := VNum 1000%float;
     Summary.freeAfterFixed := VUndefined |}.

(** Owner inputs: one filled in, one left empty, one without a name; and
    the same with an amount that is not a number. *)
Definition ownerInputsGood : list (string * value) :=
  [("Ola", VStr "30000"); ("Kari", VStr ""); ("  ", VStr "5")].

Definition ownerInputsBad : list (string * value) :=
  [("Ola", VStr "30000"); ("Kari", VStr ""); ("Per", VStr "abc")].

(** Owner inputs in which the amount that is not a number sits under a
    name of one space. *)
Definition ownerInputsBlankName : list (string * value) :=
  [("Ola", VStr "30000"); (" ", VStr "abc")].

(** Four expenses: two in one category, one without a category and with a
    negative amount, one with an amount that is not finite.  With time
    counted from [0], the first binding ends in 45 days and a half, the
    second in 120 days, the third has a date that does not parse. *)
Definition rent : Core.FixedExpense :=
  {| Core.id := 1; Core.name := "Rent"; Core.category := "Housing";
     Core.level := "Must"; Core.amountPerMonth := Core.Dec (100 # 1);
     Core.owners := ["Ola"];
     Core.bindingEndDate := Core.EndsAt (45 * 86400000 + 43200000) |}.

Definition power : Core.FixedExpense :=
  {| Core.id := 2; Core.name := "Power"; Core.category := "Housing";
     Core.level := "Want"; Core.amountPerMonth := Core.Dec (1 # 2);
     Core.owners := []; Core.bindingEndDate := Core.EndsAt (120 * 86400000) |}.

Definition refund : Core.FixedExpense :=
  {| Core.id := 3; Core.name := "Refund"; Core.category := "";
     Core.level := "Must"; Core.amountPerMonth := Core.Dec (-5 # 1);
     Core.owners := []; Core.bindingEndDate := Core.Unparseable "soon" |}.

Definition broken : Core.FixedExpense :=
  {| Core.id := 4; Core.name := "Broken"; Core.category := "Media";
     Core.level := ""; Core.amountPerMonth := Core.NonFinite;
     Core.owners := []; Core.bindingEndDate := Core.NoDate |}.

Definition phone : Core.FixedExpense :=
  {| Core.id := 5; Core.name := "Phone"; Core.category := "";
     Core.level := ""; Core.amountPerMonth := Core.Dec (30 # 1);
     Core.owners := [];
     Core.bindingEndDate := Core.EndsAt (45 * 86400000) |}.

Definition sampleExpenses : list Core.FixedExpense :=
  [rent; power; refund; broken; phone].

Definition goal (saved target : Z) : Core.SavingsGoal :=
  {| Core.goalId := 0; Core.goalName := "";
     Core.targetAmount := Core.Dec (inject_Z target);
     Core.savedAmount := Core.Dec (inject_Z saved) |}.

Definition sampleGoals : list Core.SavingsGoal := [goal 50 100; goal 30 70].

Definition january31 : Date := {| year := 2025; month := 0; day := 31 |}.

Definition january15 : Date := {| year := 2025; month := 0; day := 15 |}.

(** ** Membership in the hidden list *)

Lemma includes_In (current : list string) (label : string) :
  includes current label = true <-> In label current.
Proof.
  unfold includes. rewrite existsb_exists. split.
  - intros [y [Hy He]]. apply String.eqb_eq in He. now subst.
  - intros H. exists label. split; [assumption | apply String.eqb_refl].
Qed.

Lemma includes_ext (l1 l2 : list string) (label : string) :
  (forall c, In c l1 <-> In c l2) -> includes l1 label = includes l2 label.
Proof.
  intros H. apply Bool.eq_iff_eq_true. rewrite !includes_In. apply H.
Qed.

Lemma visibleCategoryTotals_ext
    (items : list CategoryTotal) (h1 h2 : list string) :
  (forall c, In c h1 <-> In c h2) ->
  visibleCategoryTotals items h1 = visibleCategoryTotals items h2.
Proof.
  intros H. unfold visibleCategoryTotals. apply filter_ext.
  intros item. f_equal. now apply includes_ext.
Qed.

Lemma visibleCategoryTotals_In
    (items : list CategoryTotal) (hidden : list string) (item : CategoryTotal) :
  In item (visibleCategoryTotals items hidden)
  <-> In item items /\ ~ In (category item) hidden.
Proof.
  unfold visibleCategoryTotals.
  rewrite filter_In, negb_true_iff, <- includes_In.
  destruct (includes hidden (category item)); intuition congruence.
Qed.

Lemma toggleUpdater_In (label : string) (current : list string) (c : string) :
  In c (toggleUpdater label current)
  <-> (if includes current label
       then In c current /\ c <> label
       else In c current \/ c = label).
Proof.
  unfold toggleUpdater. destruct (includes current label).
  - rewrite filter_In, negb_true_iff, String.eqb_neq. tauto.
  - rewrite in_app_iff. simpl. intuition congruence.
Qed.

Lemma toggleUpdater_flips (label : string) (current : list string) :
  includes (toggleUpdater label current) label = negb (includes current label).
Proof.
  apply Bool.eq_iff_eq_true.
  rewrite includes_In, toggleUpdater_In, negb_true_iff.
  destruct (includes current label) eqn:E.
  - split; [intros [_ H]; now elim H | discriminate].
  - split; [reflexivity | intros _; now right].
Qed.

Lemma toggleUpdater_twice_In (label : string) (current : list string) (c : string) :
  In c (toggleUpdater label (toggleUpdater label current)) <-> In c current.
Proof.
  rewrite toggleUpdater_In, toggleUpdater_flips.
  destruct (includes current label) eqn:E; simpl;
    rewrite toggleUpdater_In, E.
  - apply includes_In in E.
    destruct (String.eqb_spec c label) as [-> | Hne]; tauto.
  - assert (Hn : ~ In label current).
    { intros H. apply includes_In in H. congruence. }
    split.
    + intros [[H | H] Hne]; [assumption | contradiction].
    + intros H. split; [now left | intros ->; contradiction].
Qed.

Lemma toggle_twice_In (label : string) (current : list string) (c : string) :
  In c (toggle label (toggle label current)) <-> In c current.
Proof.
  unfold toggle. destruct (String.eqb label "").
  - reflexivity.
  - apply toggleUpdater_twice_In.
Qed.

(** ** Pruning *)


Lemma pruneHiddenCategories_idempotent
    (items : list CategoryTotal) (current : list string) :
  pruneHiddenCategories items (pruneHiddenCategories items current)
  = pruneHiddenCategories items current.
Proof.
  unfold pruneHiddenCategories.
  induction current as [| c rest IH]; [reflexivity |].
  cbn [filter].
  destruct (existsb (fun item => String.eqb (category item) c) items) eqn:E.
  - cbn [filter]. rewrite E. now f_equal.
  - exact IH.
Qed.


(** ** The visible totals *)

Section DashboardFacts.

Variable StringToNumber : string -> float.

Lemma sumTotals_nil : sumTotals StringToNumber [] = 0%float.
Proof. reflexivity. Qed.

Lemma sumTotals_snoc (visible : list CategoryTotal) (item : CategoryTotal) :
  sumTotals StringToNumber (visible ++ [item])
  = (sumTotals StringToNumber visible + totalOf StringToNumber item)%float.
Proof. unfold sumTotals. now rewrite fold_left_app. Qed.

Lemma length_zero_nil {A : Type} (l : list A) :
  (List.length l =? 0)%nat = true <-> l = [].
Proof.
  destruct l; simpl; split; intros H; try reflexivity; discriminate.
Qed.

Lemma visibleFixedTotal_empty (summary : Summary.t) (hidden : list string) :
  fixedCategories summary = [] ->
  visibleFixedTotal StringToNumber summary hidden = defaultFixedTotal summary.
Proof.
  intros H. unfold visibleFixedTotal. now rewrite H.
Qed.

Lemma visibleFixedTotal_nonempty (summary : Summary.t) (hidden : list string) :
  fixedCategories summary <> [] ->
  visibleFixedTotal StringToNumber summary hidden
  = VNum (sumTotals StringToNumber
            (visibleCategoryTotals (fixedCategories summary) hidden)).
Proof.
  intros H. unfold visibleFixedTotal.
  destruct (fixedCategories summary); [contradiction | reflexivity].
Qed.

Lemma visibleFixedTotal_ext (summary : Summary.t) (h1 h2 : list string) :
  (forall c, In c h1 <-> In c h2) ->
  visibleFixedTotal StringToNumber summary h1
  = visibleFixedTotal StringToNumber summary h2.
Proof.
  intros H. unfold visibleFixedTotal.
  now rewrite (visibleCategoryTotals_ext _ h1 h2 H).
Qed.

(** X6: The default total is the first of the three aliases that is supplied,
    as it is, and [0] when none is. *)
Lemma defaultFixedTotal_first_supplied (summary : Summary.t) :
  (isNullish (Summary.effectiveFixedExpenseTotal summary) = false ->
   defaultFixedTotal summary = Summary.effectiveFixedExpenseTotal summary)
  /\ (isNullish (Summary.effectiveFixedExpenseTotal summary) = true ->
      isNullish (Summary.fixedExpenseTotal summary) = false ->
      defaultFixedTotal summary = Summary.fixedExpenseTotal summary)
  /\ (isNullish (Summary.effectiveFixedExpenseTotal summary) = true ->
      isNullish (Summary.fixedExpenseTotal summary) = true ->
      isNullish (Summary.fixedExpensesTotal summary) = false ->
      defaultFixedTotal summary = Summary.fixedExpensesTotal summary)
  /\ (isNullish (Summary.effectiveFixedExpenseTotal summary) = true ->
      isNullish (Summary.fixedExpenseTotal summary) = true ->
      isNullish (Summary.fixedExpensesTotal summary) = true ->
      defaultFixedTotal summary = VNum 0%float).
Proof.
  unfold defaultFixedTotal, coalesce.
  destruct (Summary.effectiveFixedExpenseTotal summary),
           (Summary.fixedExpenseTotal summary),
           (Summary.fixedExpensesTotal summary);
    simpl; repeat split; intros; try reflexivity; discriminate.
Qed.

(** C4: without categories the visible fixed total is the supplied default
    total, whatever the hidden list holds; with categories it is the sum,
    taken from left to right, of the totals of the categories that are not
    hidden. *)
Theorem visibleFixedTotal_cases (summary : Summary.t) (hidden : list string) :
  (fixedCategories summary = [] ->
   visibleFixedTotal StringToNumber summary hidden = defaultFixedTotal summary)
  /\ (fixedCategories summary <> [] ->
      visibleFixedTotal StringToNumber summary hidden
      = VNum (sumTotals StringToNumber
                (visibleCategoryTotals (fixedCategories summary) hidden)))
  /\ (forall item,
        In item (visibleCategoryTotals (fixedCategories summary) hidden)
        <-> In item (fixedCategories summary) /\ ~ In (category item) hidden)
  /\ sumTotals StringToNumber [] = 0%float
  /\ (forall visible item,
        sumTotals StringToNumber (visible ++ [item])
        = (sumTotals StringToNumber visible
           + or_else (ToNumber StringToNumber (total item)) 0)%float).
Proof.
  split; [apply visibleFixedTotal_empty |].
  split; [apply visibleFixedTotal_nonempty |].
  split; [intros item; apply visibleCategoryTotals_In |].
  split; [apply sumTotals_nil | apply sumTotals_snoc].
Qed.

(** C1: with categories present, a known income gives the income minus the
    visible fixed total; an unknown income gives the supplied
    free-after-fixed figure as it is, for every hidden list, so a toggle
    that changes the visible fixed total leaves it alone. *)
Theorem visibleFreeAfterFixed_branches
    (summary : Summary.t) (hidden : list string) :
  fixedCategories summary <> [] ->
  (forall income,
     activeMonthlyNetIncome summary = Some income ->
     visibleFreeAfterFixed StringToNumber summary hidden
     = VNum (income
             - sumTotals StringToNumber
                 (visibleCategoryTotals (fixedCategories summary) hidden))%float
     /\ visibleFixedTotal StringToNumber summary hidden
        = VNum (sumTotals StringToNumber
                  (visibleCategoryTotals (fixedCategories summary) hidden)))
  /\ (activeMonthlyNetIncome summary = None ->
      visibleFreeAfterFixed StringToNumber summary hidden
      = coalesce (Summary.freeAfterFixed summary) (VNum 0%float)
      /\ (isNullish (Summary.freeAfterFixed summary) = false ->
          forall label,
            visibleFreeAfterFixed StringToNumber summary (toggle label hidden)
            = Summary.freeAfterFixed summary)
      /\ (Summary.freeAfterFixed summary = VNum 200%float ->
          forall label,
            visibleFreeAfterFixed StringToNumber summary (toggle label hidden)
            = VNum 200%float)).
Proof.
  intros Hne.
  assert (Hlen : (List.length (fixedCategories summary) =? 0)%nat = false).
  { destruct (fixedCategories summary); [contradiction | reflexivity]. }
  assert (Hunknown : activeMonthlyNetIncome summary = None ->
                     forall h, visibleFreeAfterFixed StringToNumber summary h
                               = coalesce (Summary.freeAfterFixed summary)
                                          (VNum 0%float)).
  { intros Hinc h. unfold visibleFreeAfterFixed. now rewrite Hlen, Hinc. }
  split.
  - intros income Hinc. split.
    + unfold visibleFreeAfterFixed. rewrite Hlen, Hinc.
      now rewrite (visibleFixedTotal_nonempty summary hidden Hne).
    + now apply visibleFixedTotal_nonempty.
  - intros Hinc. split; [now apply Hunknown |]. split.
    + intros Hsup label. rewrite (Hunknown Hinc).
      unfold coalesce. now rewrite Hsup.
    + intros H200 label. rewrite (Hunknown Hinc). now rewrite H200.
Qed.

(** The same through the click handler, for a chart whose labels stay put. *)
Lemma handleLegendClick_twice
    (labels : list string) (index : nat) (current : list string) (c : string) :
  In c (handleLegendClick labels index (handleLegendClick labels index current))
  <-> In c current.
Proof.
  unfold handleLegendClick. destruct (nth_error labels index).
  - apply toggle_twice_In.
  - reflexivity.
Qed.

(** C2: two toggles of one label leave the membership of the hidden list
    as it was, also when they come as two clicks on one legend item, and
    with it the visible category totals and the visible fixed total. *)
Theorem toggle_twice_restores (label : string) (current : list string) :
  (forall c, In c (toggle label (toggle label current)) <-> In c current)
  /\ (forall labels index c,
        In c (handleLegendClick labels index
                (handleLegendClick labels index current))
        <-> In c current)
  /\ (forall items,
        visibleCategoryTotals items (toggle label (toggle label current))
        = visibleCategoryTotals items current)
  /\ (forall summary,
        visibleFixedTotal StringToNumber summary
          (toggle label (toggle label current))
        = visibleFixedTotal StringToNumber summary current).
Proof.
  split; [intros c; apply toggle_twice_In |].
  split; [intros labels index c; apply handleLegendClick_twice |].
  split.
  - intros items. apply visibleCategoryTotals_ext.
    intros c. apply toggle_twice_In.
  - intros summary. apply visibleFixedTotal_ext.
    intros c. apply toggle_twice_In.
Qed.

(** C7: the income is the override when that is a number, else the
    aggregate field when that is a number, else unknown; and an unknown
    income is not read as zero downstream: with categories present the free
    figure is then the supplied one, not a difference. *)
Theorem activeMonthlyNetIncome_fallback (summary : Summary.t) :
  (forall x,
     Summary.activeMonthlyNetIncome summary = VNum x ->
     activeMonthlyNetIncome summary = Some x)
  /\ (forall x,
        (forall y, Summary.activeMonthlyNetIncome summary <> VNum y) ->
        Summary.monthlyNetIncome summary = VNum x ->
        activeMonthlyNetIncome summary = Some x)
  /\ ((forall y, Summary.activeMonthlyNetIncome summary <> VNum y) ->
      (forall y, Summary.monthlyNetIncome summary <> VNum y) ->
      activeMonthlyNetIncome summary = None)
  /\ (activeMonthlyNetIncome summary = None ->
      forall hidden,
        visibleFreeAfterFixed StringToNumber summary hidden
        = coalesce (Summary.freeAfterFixed summary) (VNum 0%float)).
Proof.
  unfold activeMonthlyNetIncome. repeat split.
  - intros x H. now rewrite H.
  - intros x Hno H. rewrite H.
    destruct (Summary.activeMonthlyNetIncome summary); try reflexivity.
    now elim (Hno x0).
  - intros Hno1 Hno2.
    destruct (Summary.activeMonthlyNetIncome summary);
      try (now elim (Hno1 x));
      destruct (Summary.monthlyNetIncome summary);
      try reflexivity; now elim (Hno2 x).
  - intros H hidden. unfold visibleFreeAfterFixed, activeMonthlyNetIncome.
    rewrite H. now destruct (List.length (fixedCategories summary) =? 0)%nat.
Qed.

End DashboardFacts.

(** ** The dashboard on the sample data *)

Example hide_A_leaves_50 :
  visibleFixedTotal decimalStringToNumber
    (summaryAB VUndefined VUndefined) (toggle "A" [])
  = VNum 50%float.
Proof. reflexivity. Qed.

Example hide_then_show_A_gives_150 :
  visibleFixedTotal decimalStringToNumber
    (summaryAB VUndefined VUndefined) (toggle "A" (toggle "A" []))
  = VNum 150%float.
Proof. reflexivity. Qed.

Example income_1000_hide_A_gives_950 :
  visibleFreeAfterFixed decimalStringToNumber
    (summaryAB (VNum 1000%float) VUndefined) (toggle "A" [])
  = VNum 950%float.
Proof. reflexivity. Qed.

Lemma visibleFixedTotal_cases_witness :
  visibleFixedTotal decimalStringToNumber
    (summaryOf None VUndefined VUndefined) ["A"]
  = VNum 150%float
  /\ visibleFixedTotal decimalStringToNumber
       (summaryAB VUndefined VUndefined) ["A"]
     = VNum 50%float.
Proof.
  split.
  - destruct (visibleFixedTotal_cases decimalStringToNumber
                (summaryOf None VUndefined VUndefined) ["A"]) as [H _].
    exact (H eq_refl).
  - destruct (visibleFixedTotal_cases decimalStringToNumber
                (summaryAB VUndefined VUndefined) ["A"]) as [_ [H _]].
    apply H. discriminate.
Defined.

Lemma visibleFreeAfterFixed_branches_witness :
  visibleFreeAfterFixed decimalStringToNumber
    (summaryAB VUndefined (VNum 200%float)) (toggle "A" [])
  = VNum 200%float
  /\ visibleFreeAfterFixed decimalStringToNumber
       (summaryAB (VNum 1000%float) VUndefined) ["A"]
     = VNum 950%float.
Proof.
  split.
  - assert (Hne : fixedCategories (summaryAB VUndefined (VNum 200%float)) <> [])
      by discriminate.
    destruct (visibleFreeAfterFixed_branches decimalStringToNumber
                (summaryAB VUndefined (VNum 200%float)) [] Hne) as [_ H].
    destruct (H eq_refl) as [_ [_ H200]].
    exact (H200 eq_refl "A").
  - assert (Hne : fixedCategories (summaryAB (VNum 1000%float) VUndefined) <> [])
      by discriminate.
    destruct (visibleFreeAfterFixed_branches decimalStringToNumber
                (summaryAB (VNum 1000%float) VUndefined) ["A"] Hne) as [H _].
    destruct (H 1000%float eq_refl) as [Hfree _].
    exact Hfree.
Defined.

Lemma activeMonthlyNetIncome_fallback_witness :
  activeMonthlyNetIncome (summaryAB (VNum 1000%float) VUndefined)
  = Some 1000%float
  /\ activeMonthlyNetIncome summaryAggregateIncome = Some 1000%float
  /\ activeMonthlyNetIncome (summaryAB (VStr "1000") VUndefined) = None
  /\ visibleFreeAfterFixed decimalStringToNumber
       (summaryAB (VStr "1000") (VNum 200%float)) ["A"]
     = VNum 200%float.
Proof.
  split; [| split; [| split]].
  - destruct (activeMonthlyNetIncome_fallback decimalStringToNumber
                (summaryAB (VNum 1000%float) VUndefined)) as [H _].
    exact (H 1000%float eq_refl).
  - destruct (activeMonthlyNetIncome_fallback decimalStringToNumber
                summaryAggregateIncome) as [_ [H _]].
    apply H; [intros y; discriminate | reflexivity].
  - destruct (activeMonthlyNetIncome_fallback decimalStringToNumber
                (summaryAB (VStr "1000") VUndefined)) as [_ [_ [H _]]].
    apply H; intros y; discriminate.
  - destruct (activeMonthlyNetIncome_fallback decimalStringToNumber
                (summaryAB (VStr "1000") (VNum 200%float))) as [_ [_ [_ H]]].
    exact (H eq_refl ["A"]).
Defined.

(** ** The forecast series *)

Lemma monthlyForecast_length {Label : Type}
    (fmt : Z -> Z -> Label) (today : Date) (fixed free : value) :
  List.length (monthlyForecast fmt today fixed free) = 12%nat.
Proof. reflexivity. Qed.

Lemma monthlyForecast_flat {Label : Type}
    (fmt : Z -> Z -> Label) (today : Date) (fixed free : value)
    (p : ForecastPoint Label) :
  In p (monthlyForecast fmt today fixed free) ->
  fixedCosts p = fixed /\ availableAfterFixed p = free.
Proof.
  unfold monthlyForecast. rewrite in_map_iff.
  intros [index [<- _]]. now split.
Qed.

Lemma daysInMonth_at_least_28 (y m : Z) : (28 <= daysInMonth y m)%Z.
Proof.
  unfold daysInMonth.
  destruct (m =? 1)%Z; [destruct (isLeapYear y); lia |].
  destruct ((m =? 3) || (m =? 5) || (m =? 8) || (m =? 10))%Z; lia.
Qed.

(** X14: Up to the 28th the series runs through consecutive months. *)
Lemma monthlyForecast_consecutive_until_28th
    (today : Date) (fixed free : value) :
  (day today <= 28)%Z ->
  map label (monthlyForecast pair today fixed free)
  = map (monthAfter today) (seq 0 12).
Proof.
  intros Hday. unfold monthlyForecast. rewrite map_map.
  apply map_ext. intros index. cbv beta zeta. unfold setMonth, monthAfter.
  pose proof (daysInMonth_at_least_28
                (year today + (month today + Z.of_nat index) / 12)
                ((month today + Z.of_nat index) mod 12)) as Hdim.
  destruct (Z.leb_spec (day today)
              (daysInMonth (year today + (month today + Z.of_nat index) / 12)
                           ((month today + Z.of_nat index) mod 12)));
    [reflexivity | lia].
Qed.

(** C6 on 31 January 2025: twelve points with the two values in each, but
    the months are January, March, March, May, May, July, July, August,
    October, October, December, December: February, April, June, September
    and November are missing, and the series differs from the twelve
    consecutive months from January on. *)
Theorem monthlyForecast_on_the_31st (fixed free : value) :
  List.length (monthlyForecast pair january31 fixed free) = 12%nat
  /\ map fixedCosts (monthlyForecast pair january31 fixed free)
     = repeat fixed 12
  /\ map availableAfterFixed (monthlyForecast pair january31 fixed free)
     = repeat free 12
  /\ map label (monthlyForecast pair january31 fixed free)
     = [(2025, 0); (2025, 2); (2025, 2); (2025, 4); (2025, 4); (2025, 6);
        (2025, 6); (2025, 7); (2025, 9); (2025, 9); (2025, 11); (2025, 11)]%Z
  /\ map (monthAfter january31) (seq 0 12)
     = [(2025, 0); (2025, 1); (2025, 2); (2025, 3); (2025, 4); (2025, 5);
        (2025, 6); (2025, 7); (2025, 8); (2025, 9); (2025, 10); (2025, 11)]%Z
  /\ map label (monthlyForecast pair january31 fixed free)
     <> map (monthAfter january31) (seq 0 12).
Proof.
  repeat split; try reflexivity.
  intros H. vm_compute in H. discriminate H.
Qed.

Example monthlyForecast_mid_month (fixed free : value) :
  map label (monthlyForecast pair january15 fixed free)
  = [(2025, 0); (2025, 1); (2025, 2); (2025, 3); (2025, 4); (2025, 5);
     (2025, 6); (2025, 7); (2025, 8); (2025, 9); (2025, 10); (2025, 11)]%Z.
Proof. reflexivity. Qed.

(** ** Saving the owner incomes *)

Section SaveFacts.

Import Settings.

Variable trim : string -> string.
Variable StringToNumber : string -> float.
Variable NumberToString : float -> string.

Lemma remaining_In (ownerInputs : list (string * value)) (entry : string * value) :
  In entry (remaining trim ownerInputs)
  <-> In entry ownerInputs /\ hasName trim entry = true /\ hasValue entry = true.
Proof.
  unfold remaining. rewrite !filter_In. tauto.
Qed.

Lemma remaining_drops_empty
    (ownerInputs : list (string * value)) (owner : string) :
  ~ In (owner, VStr "") (remaining trim ownerInputs).
Proof.
  rewrite remaining_In. intros [_ [_ H]]. discriminate H.
Qed.

Lemma toProfile_cases (entry : string * value) :
  toProfile trim StringToNumber entry
  = if invalidValue StringToNumber (snd entry)
    then inl (invalidAmountMessage (trim (fst entry)))
    else inr (profileOf trim StringToNumber entry).
Proof. reflexivity. Qed.

Lemma mapProfiles_all_pass (entries : list (string * value)) :
  (forall entry, In entry entries ->
                 invalidValue StringToNumber (snd entry) = false) ->
  mapProfiles trim StringToNumber entries
  = inr (map (profileOf trim StringToNumber) entries).
Proof.
  induction entries as [| entry rest IH]; intros H; [reflexivity |].
  cbn [mapProfiles map]. rewrite toProfile_cases.
  rewrite (H entry (or_introl eq_refl)).
  rewrite IH; [reflexivity |].
  intros e He. apply H. now right.
Qed.

Lemma mapProfiles_first_failure (entries : list (string * value)) :
  (exists entry, In entry entries
                 /\ invalidValue StringToNumber (snd entry) = true) ->
  exists entry,
    In entry entries
    /\ invalidValue StringToNumber (snd entry) = true
    /\ mapProfiles trim StringToNumber entries
       = inl (invalidAmountMessage (trim (fst entry))).
Proof.
  induction entries as [| entry rest IH]; intros [bad [Hin Hbad]].
  - destruct Hin.
  - cbn [mapProfiles]. rewrite toProfile_cases.
    destruct (invalidValue StringToNumber (snd entry)) eqn:E.
    + exists entry. repeat split; [now left | assumption].
    + destruct Hin as [-> | Hin]; [congruence |].
      destruct IH as [e [He [Hv Hm]]]; [now exists bad |].
      exists e. rewrite Hm. repeat split; [now right | assumption].
Qed.

Lemma messageOr_invalidAmountMessage (trimmedName : string) :
  messageOr (invalidAmountMessage trimmedName)
  = invalidAmountMessage trimmedName.
Proof. reflexivity. Qed.

(** C10, as the code has it: the entries that remain are those with a name
    that is not blank and a value that is not empty.  An entry with an empty
    value never reaches the payload; if one of the entries that remain fails
    the check, the save ends with an error message and without a call to the
    settings service; if all pass, the service is called once, with the
    profiles of exactly those entries. *)
Theorem handleSaveOwners_all_or_nothing
    (updateSettings : list OwnerProfile -> response)
    (ownerInputs : list (string * value)) :
  (forall owner, ~ In (owner, VStr "") (remaining trim ownerInputs))
  /\ ((exists entry, In entry (remaining trim ownerInputs)
                     /\ invalidValue StringToNumber (snd entry) = true) ->
      exists entry,
        In entry (remaining trim ownerInputs)
        /\ invalidValue StringToNumber (snd entry) = true
        /\ handleSaveOwners trim StringToNumber NumberToString
             updateSettings ownerInputs
           = [SetOwnerStatus ""; SetOwnerError ""; SetIsSavingOwners true;
              SetOwnerError (invalidAmountMessage (trim (fst entry)));
              SetIsSavingOwners false]
        /\ filter isUpdateSettings
             (handleSaveOwners trim StringToNumber NumberToString
                updateSettings ownerInputs)
           = [])
  /\ ((forall entry, In entry (remaining trim ownerInputs) ->
                     invalidValue StringToNumber (snd entry) = false) ->
      filter isUpdateSettings
        (handleSaveOwners trim StringToNumber NumberToString
           updateSettings ownerInputs)
      = [UpdateSettings
           (map (profileOf trim StringToNumber) (remaining trim ownerInputs))]).
Proof.
  split; [intros owner; apply remaining_drops_empty |].
  split.
  - intros Hbad.
    destruct (mapProfiles_first_failure _ Hbad) as [entry [Hin [Hinv Hmap]]].
    exists entry.
    assert (Hrun : handleSaveOwners trim StringToNumber NumberToString
                     updateSettings ownerInputs
                   = [SetOwnerStatus ""; SetOwnerError "";
                      SetIsSavingOwners true;
                      SetOwnerError (invalidAmountMessage (trim (fst entry)));
                      SetIsSavingOwners false]).
    { unfold handleSaveOwners, buildPayload. rewrite Hmap.
      now rewrite messageOr_invalidAmountMessage. }
    repeat split; try assumption. now rewrite Hrun.
  - intros Hok. unfold handleSaveOwners, buildPayload.
    rewrite (mapProfiles_all_pass _ Hok).
    destruct (updateSettings
                (map (profileOf trim StringToNumber) (remaining trim ownerInputs)));
      reflexivity.
Qed.

End SaveFacts.

Lemma handleSaveOwners_all_or_nothing_witness :
  filter Settings.isUpdateSettings
    (Settings.handleSaveOwners asciiTrim decimalStringToNumber (fun _ => "")
       Settings.echo ownerInputsBad)
  = []
  /\ filter Settings.isUpdateSettings
       (Settings.handleSaveOwners asciiTrim decimalStringToNumber (fun _ => "")
          Settings.echo ownerInputsGood)
     = [Settings.UpdateSettings
          [{| Settings.name := "Ola";
              Settings.monthlyNetIncome := 30000%float |}]].
Proof.
  split.
  - destruct (handleSaveOwners_all_or_nothing
                asciiTrim decimalStringToNumber (fun _ => "") Settings.echo
                ownerInputsBad) as [_ [H _]].
    destruct H as [entry [_ [_ [_ H]]]].
    + exists ("Per", VStr "abc"). split; [right; now left | reflexivity].
    + exact H.
  - destruct (handleSaveOwners_all_or_nothing
                asciiTrim decimalStringToNumber (fun _ => "") Settings.echo
                ownerInputsGood) as [_ [_ H]].
    apply H. intros entry [<- | []]. reflexivity.
Defined.

(** C10, as the claim has it, fails: the amount that is not a number sits
    under a blank name, its value is not empty, and yet the save does not
    end in an error: the entry is dropped for its name and the service is
    called with the profile of the other owner. *)
Lemma blank_name_with_bad_amount_is_dropped :
  ~ ((exists entry,
        In entry ownerInputsBlankName
        /\ snd entry <> VStr ""
        /\ Settings.invalidValue decimalStringToNumber (snd entry) = true) ->
     filter Settings.isUpdateSettings
       (Settings.handleSaveOwners asciiTrim decimalStringToNumber
          (fun _ => "") Settings.echo ownerInputsBlankName)
     = []).
Proof.
  intros H.
  assert (Hbad : exists entry,
             In entry ownerInputsBlankName
             /\ snd entry <> VStr ""
             /\ Settings.invalidValue decimalStringToNumber (snd entry)
                = true).
  { exists (" ", VStr "abc").
    split; [right; now left |]. split; [discriminate | reflexivity]. }
  specialize (H Hbad). vm_compute in H. discriminate H.
Qed.

(** ** The aggregation of fixed expenses *)

Section AggregatorFacts.

Import Core.
Local Open Scope Q_scope.

Lemma sumQ_cons (q : Q) (l : list Q) : sumQ (q :: l) = q + sumQ l.
Proof. reflexivity. Qed.

Lemma sumQ_addTo (k : string) (q : Q) (totals : list (string * Q)) :
  sumQ (map snd (addTo k q totals)) == sumQ (map snd totals) + q.
Proof.
  induction totals as [| [k' t] rest IH]; cbn [addTo].
  - cbn [map snd]. rewrite sumQ_cons. unfold sumQ at 1 2. cbn [fold_right]. ring.
  - destruct (String.eqb k' k); cbn [map snd fst]; rewrite !sumQ_cons.
    + ring.
    + rewrite IH. ring.
Qed.

Lemma keys_addTo (k : string) (q : Q) (totals : list (string * Q)) (k' : string) :
  In k' (map fst (addTo k q totals)) <-> k' = k \/ In k' (map fst totals).
Proof.
  induction totals as [| [k0 t] rest IH]; cbn [addTo].
  - simpl. intuition congruence.
  - destruct (String.eqb_spec k0 k) as [-> | Hne]; cbn [map fst In].
    + intuition congruence.
    + rewrite IH. tauto.
Qed.

Lemma NoDup_addTo (k : string) (q : Q) (totals : list (string * Q)) :
  NoDup (map fst totals) -> NoDup (map fst (addTo k q totals)).
Proof.
  induction totals as [| [k0 t] rest IH]; cbn [addTo]; intros Hnd.
  - simpl. constructor; [intros [] | constructor].
  - cbn [map fst] in Hnd. inversion Hnd as [| ? ? Hnotin Hrest]; subst.
    destruct (String.eqb_spec k0 k) as [-> | Hne]; cbn [map fst].
    + now constructor.
    + constructor; [| now apply IH].
      rewrite keys_addTo. intros [-> | H]; [now elim Hne | contradiction].
Qed.

Lemma lookupTotal_addTo (k k' : string) (q : Q) (totals : list (string * Q)) :
  lookupTotal k (addTo k' q totals)
  == lookupTotal k totals + (if String.eqb k' k then q else 0).
Proof.
  induction totals as [| [k0 t] rest IH]; cbn [addTo lookupTotal].
  - destruct (String.eqb k' k); ring.
  - destruct (String.eqb_spec k0 k') as [-> | Hne]; cbn [lookupTotal].
    + destruct (String.eqb k' k); ring.
    + destruct (String.eqb_spec k0 k) as [-> | Hne'].
      * destruct (String.eqb_spec k' k) as [-> | _]; [now elim Hne | ring].
      * apply IH.
Qed.

Lemma lookupTotal_In (k : string) (t : Q) (totals : list (string * Q)) :
  NoDup (map fst totals) -> In (k, t) totals -> lookupTotal k totals = t.
Proof.
  induction totals as [| [k0 t0] rest IH]; intros Hnd Hin; [destruct Hin |].
  cbn [map fst] in Hnd. inversion Hnd as [| ? ? Hnotin Hrest]; subst.
  cbn [lookupTotal]. destruct Hin as [Heq | Hin].
  - inversion Heq; subst. now rewrite String.eqb_refl.
  - destruct (String.eqb_spec k0 k) as [-> | Hne]; [| now apply IH].
    elim Hnotin. change k with (fst (k, t)). now apply in_map.
Qed.

Lemma aggregate_components (expenses : list FixedExpense)
    (cats levels : list (string * Q)) :
  fold_left
    (fun totals e =>
       match validAmount (amountPerMonth e) with
       | Some q => (addTo (categoryKey e) q (fst totals),
                    addTo (levelKey e) q (snd totals))
       | None => totals
       end)
    expenses (cats, levels)
  = (bucketsFrom categoryKey expenses cats, bucketsFrom levelKey expenses levels).
Proof.
  revert cats levels.
  induction expenses as [| e rest IH]; intros cats levels; [reflexivity |].
  unfold bucketsFrom. cbn [fold_left].
  destruct (validAmount (amountPerMonth e)); cbn [fst snd]; apply IH.
Qed.

Section Buckets.

Variable keyOf : FixedExpense -> string.

Lemma bucketsFrom_cons (e : FixedExpense) (rest : list FixedExpense)
    (init : list (string * Q)) :
  bucketsFrom keyOf (e :: rest) init
  = bucketsFrom keyOf rest
      (match validAmount (amountPerMonth e) with
       | Some q => addTo (keyOf e) q init
       | None => init
       end).
Proof. reflexivity. Qed.

Lemma bucketsFrom_sum (expenses : list FixedExpense) (init : list (string * Q)) :
  sumQ (map snd (bucketsFrom keyOf expenses init))
  == sumQ (map snd init) + sumQ (validAmounts expenses).
Proof.
  revert init. induction expenses as [| e rest IH]; intros init.
  - unfold bucketsFrom. cbn [fold_left validAmounts].
    unfold sumQ at 3. cbn [fold_right]. ring.
  - rewrite bucketsFrom_cons, IH. cbn [validAmounts].
    destruct (validAmount (amountPerMonth e)).
    + rewrite sumQ_addTo, sumQ_cons. ring.
    + reflexivity.
Qed.

Lemma bucketsFrom_NoDup (expenses : list FixedExpense) (init : list (string * Q)) :
  NoDup (map fst init) -> NoDup (map fst (bucketsFrom keyOf expenses init)).
Proof.
  revert init. induction expenses as [| e rest IH]; intros init Hnd.
  - exact Hnd.
  - rewrite bucketsFrom_cons. apply IH.
    destruct (validAmount (amountPerMonth e)); [now apply NoDup_addTo | exact Hnd].
Qed.

Lemma bucketsFrom_keeps_keys (expenses : list FixedExpense)
    (init : list (string * Q)) (k : string) :
  In k (map fst init) -> In k (map fst (bucketsFrom keyOf expenses init)).
Proof.
  revert init. induction expenses as [| e rest IH]; intros init Hin.
  - exact Hin.
  - rewrite bucketsFrom_cons. apply IH.
    destruct (validAmount (amountPerMonth e)); [| exact Hin].
    rewrite keys_addTo. now right.
Qed.

Lemma bucketsFrom_has_key (expenses : list FixedExpense)
    (init : list (string * Q)) (e : FixedExpense) (q : Q) :
  In e expenses -> validAmount (amountPerMonth e) = Some q ->
  In (keyOf e) (map fst (bucketsFrom keyOf expenses init)).
Proof.
  revert init. induction expenses as [| e0 rest IH]; intros init Hin Hq.
  - destruct Hin.
  - rewrite bucketsFrom_cons. destruct Hin as [-> | Hin].
    + rewrite Hq. apply bucketsFrom_keeps_keys. rewrite keys_addTo. now left.
    + now apply IH.
Qed.

Lemma bucketsFrom_lookup (expenses : list FixedExpense)
    (init : list (string * Q)) (k : string) :
  lookupTotal k (bucketsFrom keyOf expenses init)
  == lookupTotal k init + sumQ (amountsIn keyOf k expenses).
Proof.
  revert init. induction expenses as [| e rest IH]; intros init.
  - unfold bucketsFrom, amountsIn. cbn [fold_left filter validAmounts].
    unfold sumQ. cbn [fold_right]. ring.
  - rewrite bucketsFrom_cons, IH. unfold amountsIn. cbn [filter].
    destruct (validAmount (amountPerMonth e)) as [q |] eqn:Hq.
    + rewrite lookupTotal_addTo.
      destruct (String.eqb (keyOf e) k); cbn [validAmounts].
      * rewrite Hq, sumQ_cons. ring.
      * ring.
    + destruct (String.eqb (keyOf e) k); cbn [validAmounts];
        [rewrite Hq |]; reflexivity.
Qed.

Lemma bucketsFrom_total (expenses : list FixedExpense) (k : string) (t : Q) :
  In (k, t) (bucketsFrom keyOf expenses []) ->
  t == sumQ (amountsIn keyOf k expenses).
Proof.
  intros Hin.
  rewrite <- (lookupTotal_In k t (bucketsFrom keyOf expenses [])).
  - rewrite bucketsFrom_lookup. cbn [lookupTotal]. ring.
  - apply bucketsFrom_NoDup. constructor.
  - exact Hin.
Qed.

End Buckets.

Lemma categoryTotals_buckets (expenses : list FixedExpense) :
  categoryTotals expenses = bucketsFrom categoryKey expenses [].
Proof.
  unfold categoryTotals, aggregate. now rewrite aggregate_components.
Qed.

Lemma levelTotals_buckets (expenses : list FixedExpense) :
  levelTotals expenses = bucketsFrom levelKey expenses [].
Proof.
  unfold levelTotals, aggregate. now rewrite aggregate_components.
Qed.

(** C5: the category totals and the level totals both add up to the sum of
    the valid monthly amounts; the buckets of either kind have distinct
    keys, every valid expense has its bucket among them, and the total of a
    bucket is the sum of the valid amounts of the expenses that fall in it. *)
Theorem aggregate_sums_agree (expenses : list FixedExpense) :
  sumQ (map snd (categoryTotals expenses)) == sumQ (validAmounts expenses)
  /\ sumQ (map snd (levelTotals expenses)) == sumQ (validAmounts expenses)
  /\ sumQ (map snd (categoryTotals expenses))
     == sumQ (map snd (levelTotals expenses))
  /\ NoDup (map fst (categoryTotals expenses))
  /\ NoDup (map fst (levelTotals expenses))
  /\ (forall e q,
        In e expenses -> validAmount (amountPerMonth e) = Some q ->
        In (categoryKey e) (map fst (categoryTotals expenses))
        /\ In (levelKey e) (map fst (levelTotals expenses)))
  /\ (forall k t,
        In (k, t) (categoryTotals expenses) ->
        t == sumQ (amountsIn categoryKey k expenses))
  /\ (forall k t,
        In (k, t) (levelTotals expenses) ->
        t == sumQ (amountsIn levelKey k expenses)).
Proof.
  rewrite categoryTotals_buckets, levelTotals_buckets.
  assert (Hc : sumQ (map snd (bucketsFrom categoryKey expenses []))
               == sumQ (validAmounts expenses)).
  { rewrite bucketsFrom_sum. unfold sumQ at 1. cbn [map fold_right]. ring. }
  assert (Hl : sumQ (map snd (bucketsFrom levelKey expenses []))
               == sumQ (validAmounts expenses)).
  { rewrite bucketsFrom_sum. unfold sumQ at 1. cbn [map fold_right]. ring. }
  split; [exact Hc |]. split; [exact Hl |].
  split; [now rewrite Hc, Hl |].
  split; [apply bucketsFrom_NoDup; constructor |].
  split; [apply bucketsFrom_NoDup; constructor |].
  split.
  - intros e q Hin Hq. split; eapply bucketsFrom_has_key; eassumption.
  - split; intros k t; apply bucketsFrom_total.
Qed.

End AggregatorFacts.

Example sampleExpenses_totals :
  Core.categoryTotals sampleExpenses
  = [("Housing", (0 + (100 # 1)) + (1 # 2)); ("Uncategorized", 30 # 1)]%Q
  /\ Core.levelTotals sampleExpenses
     = [("Must", 0 + (100 # 1)); ("Want", 1 # 2); ("Unspecified", 30 # 1)]%Q
  /\ Core.validAmounts sampleExpenses = [100 # 1; 1 # 2; 30 # 1]%Q.
Proof. vm_compute. repeat split. Qed.

Lemma aggregate_sums_agree_witness :
  (Core.sumQ (map snd (Core.categoryTotals sampleExpenses))
   == Core.sumQ (map snd (Core.levelTotals sampleExpenses)))%Q
  /\ In "Housing" (map fst (Core.categoryTotals sampleExpenses))
  /\ In "Uncategorized" (map fst (Core.categoryTotals sampleExpenses))
  /\ ((0 + (100 # 1)) + (1 # 2)
      == Core.sumQ (Core.amountsIn Core.categoryKey "Housing" sampleExpenses))%Q.
Proof.
  destruct (aggregate_sums_agree sampleExpenses)
    as [_ [_ [Hsum [_ [_ [Hkey [Hcat _]]]]]]].
  split; [exact Hsum |].
  split; [exact (proj1 (Hkey rent (100 # 1)%Q (or_introl eq_refl) eq_refl)) |].
  split.
  - refine (proj1 (Hkey phone (30 # 1)%Q _ eq_refl)).
    do 4 right. now left.
  - apply Hcat. now left.
Defined.

(** ** The savings summary *)

Section SavingsFacts.

Import Core.
Local Open Scope Q_scope.

Lemma validAmount_nonneg (d : decimal) (q : Q) :
  validAmount d = Some q -> 0 <= q.
Proof.
  destruct d as [q0 |]; cbn [validAmount]; [| discriminate].
  destruct (Qle_bool 0 q0) eqn:E; [| discriminate].
  intros H. inversion H; subst. now apply Qle_bool_iff.
Qed.

Lemma validOf_sum_nonneg (field : SavingsGoal -> decimal)
    (goals : list SavingsGoal) :
  0 <= sumQ (validOf field goals).
Proof.
  induction goals as [| g rest IH]; cbn [validOf].
  - unfold sumQ. cbn [fold_right]. apply Qle_refl.
  - destruct (validAmount (field g)) as [q |] eqn:E; [| exact IH].
    rewrite sumQ_cons.
    setoid_replace 0 with (0 + 0) by ring.
    apply Qplus_le_compat; [now apply (validAmount_nonneg (field g)) | exact IH].
Qed.

Lemma summarize_fold (goals : list SavingsGoal) (c : nat) (s t : Q) :
  let acc :=
    fold_left
      (fun acc g =>
         (S (fst (fst acc)),
          snd (fst acc) + amountOrZero (savedAmount g),
          snd acc + amountOrZero (targetAmount g)))
      goals (c, s, t) in
  fst (fst acc) = (List.length goals + c)%nat
  /\ snd (fst acc) == s + sumQ (validOf savedAmount goals)
  /\ snd acc == t + sumQ (validOf targetAmount goals).
Proof.
  revert c s t. induction goals as [| g rest IH]; intros c s t.
  - cbn [fold_left fst snd List.length validOf]. unfold sumQ. cbn [fold_right].
    repeat split; try ring.
  - cbn [fold_left fst snd List.length validOf].
    destruct (IH (S c) (s + amountOrZero (savedAmount g))
                 (t + amountOrZero (targetAmount g))) as [Hc [Hs Ht]].
    cbv zeta in Hc, Hs, Ht. cbv zeta.
    split; [rewrite Hc; lia |].
    split.
    + rewrite Hs. unfold amountOrZero.
      destruct (validAmount (savedAmount g)); [rewrite sumQ_cons |]; ring.
    + rewrite Ht. unfold amountOrZero.
      destruct (validAmount (targetAmount g)); [rewrite sumQ_cons |]; ring.
Qed.

Lemma round_nearest (q : Q) :
  inject_Z (round q) <= q + (1 # 2) /\ q + (1 # 2) < inject_Z (round q) + 1.
Proof.
  unfold round. split.
  - apply Qfloor_le.
  - pose proof (Qlt_floor (q + (1 # 2))) as H.
    now rewrite inject_Z_plus in H.
Qed.

Lemma round_nonneg (q : Q) : 0 <= q -> (0 <= round q)%Z.
Proof.
  intros H. unfold round.
  change 0%Z with (Qfloor 0). apply Qfloor_resp_le.
  setoid_replace 0 with (0 + 0) by ring.
  apply Qplus_le_compat; [exact H | discriminate].
Qed.

Lemma summarizeSavingsGoals_general (goals : list SavingsGoal) :
  let stats := summarizeSavingsGoals goals in
  goalCount stats = List.length goals
  /\ totalSaved stats == sumQ (validOf savedAmount goals)
  /\ totalTarget stats == sumQ (validOf targetAmount goals)
  /\ (goalCount stats = 0%nat \/ totalTarget stats == 0 ->
      avgProgress stats = 0%Z)
  /\ (goalCount stats <> 0%nat -> ~ totalTarget stats == 0 ->
      0 < totalTarget stats
      /\ avgProgress stats
         = round (100 * totalSaved stats / totalTarget stats)
      /\ inject_Z (avgProgress stats)
         <= 100 * totalSaved stats / totalTarget stats + (1 # 2)
      /\ 100 * totalSaved stats / totalTarget stats + (1 # 2)
         < inject_Z (avgProgress stats) + 1
      /\ (0 <= avgProgress stats)%Z).
Proof.
  unfold summarizeSavingsGoals. cbv zeta.
  cbn [goalCount totalSaved totalTarget avgProgress].
  destruct (summarize_fold goals 0%nat 0 0) as [Hc [Hs Ht]].
  cbv zeta in Hc, Hs, Ht.
  set (acc := fold_left _ goals (0%nat, 0, 0)) in *.
  assert (Hsaved : 0 <= snd (fst acc)).
  { rewrite Hs. setoid_replace (0 + sumQ (validOf savedAmount goals))
      with (sumQ (validOf savedAmount goals)) by ring.
    apply validOf_sum_nonneg. }
  assert (Htarget : 0 <= snd acc).
  { rewrite Ht. setoid_replace (0 + sumQ (validOf targetAmount goals))
      with (sumQ (validOf targetAmount goals)) by ring.
    apply validOf_sum_nonneg. }
  split; [rewrite Hc; lia |].
  split; [rewrite Hs; ring |].
  split; [rewrite Ht; ring |].
  split.
  - unfold progressOf. intros [H0 | H0].
    + now rewrite H0.
    + apply Qeq_bool_iff in H0. rewrite H0. now rewrite orb_true_r.
  - intros Hcount Hnz. unfold progressOf.
    assert (Hpos : 0 < snd acc).
    { apply Qle_lteq in Htarget. destruct Htarget as [H | H];
        [exact H | elim Hnz; now symmetry]. }
    assert (E1 : (fst (fst acc) =? 0)%nat = false)
      by now apply Nat.eqb_neq.
    assert (E2 : Qeq_bool (snd acc) 0 = false).
    { destruct (Qeq_bool (snd acc) 0) eqn:E; [| reflexivity].
      apply Qeq_bool_iff in E. contradiction. }
    rewrite E1, E2. cbn [orb].
    split; [exact Hpos |]. split; [reflexivity |].
    split; [apply round_nearest |]. split; [apply round_nearest |].
    apply round_nonneg. unfold Qdiv.
    apply Qmult_le_0_compat.
    + apply Qmult_le_0_compat; [discriminate | exact Hsaved].
    + apply Qinv_le_0_compat. now apply Qlt_le_weak.
Qed.

(** C8: the count is the number of goals, the two totals are the sums of
    the valid saved and target amounts, and the progress is [0] without
    goals or without a target, else the quotient rounded to the nearest
    integer, taken over a target that is positive, so that the division is
    defined; the progress is never negative and has no upper bound.  The
    goals (50 of 100, 30 of 70) give 80, 170 and 47; no goals give 0; 150
    saved of 100 give 150. *)
Theorem summarizeSavingsGoals_stats :
  (forall goals,
     let stats := summarizeSavingsGoals goals in
     goalCount stats = List.length goals
     /\ totalSaved stats == sumQ (validOf savedAmount goals)
     /\ totalTarget stats == sumQ (validOf targetAmount goals)
     /\ (goalCount stats = 0%nat \/ totalTarget stats == 0 ->
         avgProgress stats = 0%Z)
     /\ (goalCount stats <> 0%nat -> ~ totalTarget stats == 0 ->
         0 < totalTarget stats
         /\ avgProgress stats
            = round (100 * totalSaved stats / totalTarget stats)
         /\ inject_Z (avgProgress stats)
            <= 100 * totalSaved stats / totalTarget stats + (1 # 2)
         /\ 100 * totalSaved stats / totalTarget stats + (1 # 2)
            < inject_Z (avgProgress stats) + 1
         /\ (0 <= avgProgress stats)%Z))
  /\ goalCount (summarizeSavingsGoals sampleGoals) = 2%nat
  /\ totalSaved (summarizeSavingsGoals sampleGoals) == 80 # 1
  /\ totalTarget (summarizeSavingsGoals sampleGoals) == 170 # 1
  /\ avgProgress (summarizeSavingsGoals sampleGoals) = 47%Z
  /\ avgProgress (summarizeSavingsGoals []) = 0%Z
  /\ avgProgress (summarizeSavingsGoals [goal 150 100]) = 150%Z.
Proof.
  split; [exact summarizeSavingsGoals_general |].
  vm_compute. repeat split.
Qed.

End SavingsFacts.

Example sampleGoals_stats :
  Core.goalCount (Core.summarizeSavingsGoals sampleGoals) = 2%nat
  /\ (Core.totalSaved (Core.summarizeSavingsGoals sampleGoals) == 80 # 1)%Q
  /\ (Core.totalTarget (Core.summarizeSavingsGoals sampleGoals) == 170 # 1)%Q
  /\ Core.avgProgress (Core.summarizeSavingsGoals sampleGoals) = 47%Z
  /\ Core.avgProgress (Core.summarizeSavingsGoals []) = 0%Z
  /\ Core.avgProgress (Core.summarizeSavingsGoals [goal 150 100]) = 150%Z
  /\ Core.avgProgress (Core.summarizeSavingsGoals [goal 50 0]) = 0%Z.
Proof. vm_compute. repeat split. Qed.

Lemma summarizeSavingsGoals_stats_witness :
  Core.avgProgress (Core.summarizeSavingsGoals [goal 50 0]) = 0%Z
  /\ Core.avgProgress (Core.summarizeSavingsGoals sampleGoals)
     = Core.round
         (100 * Core.totalSaved (Core.summarizeSavingsGoals sampleGoals)
          / Core.totalTarget (Core.summarizeSavingsGoals sampleGoals))%Q.
Proof.
  destruct summarizeSavingsGoals_stats as [Hall _].
  split.
  - destruct (Hall [goal 50 0]) as [_ [_ [_ [H _]]]].
    apply H. right. reflexivity.
  - destruct (Hall sampleGoals) as [_ [_ [_ [_ H]]]].
    destruct H as [_ [H _]]; [discriminate | discriminate | exact H].
Defined.

(** ** The binding expirations *)

Section TrackerFacts.

Import Core.

Lemma ascii_compare_trans (a b c : ascii) :
  Ascii.compare a b <> Gt -> Ascii.compare b c <> Gt ->
  Ascii.compare a c <> Gt
  /\ (Ascii.compare a c = Eq ->
      Ascii.compare a b = Eq /\ Ascii.compare b c = Eq).
Proof.
  unfold Ascii.compare.
  destruct (N.compare_spec (N_of_ascii a) (N_of_ascii b)),
           (N.compare_spec (N_of_ascii b) (N_of_ascii c)),
           (N.compare_spec (N_of_ascii a) (N_of_ascii c));
    intros Hx Hy; (split; [| intros He]); try split;
    try reflexivity; try discriminate; try congruence;
    exfalso; try congruence; lia.
Qed.

Lemma string_compare_trans (s1 s2 s3 : string) :
  String.compare s1 s2 <> Gt -> String.compare s2 s3 <> Gt ->
  String.compare s1 s3 <> Gt.
Proof.
  revert s2 s3. induction s1 as [| a s1 IH]; intros [| b s2] [| c s3];
    cbn [String.compare]; try congruence.
  intros H1 H2.
  assert (Hab : Ascii.compare a b <> Gt)
    by (destruct (Ascii.compare a b); congruence).
  assert (Hbc : Ascii.compare b c <> Gt)
    by (destruct (Ascii.compare b c); congruence).
  destruct (ascii_compare_trans a b c Hab Hbc) as [Hac Heq].
  destruct (Ascii.compare a c) eqn:E; try congruence.
  destruct (Heq eq_refl) as [E1 E2]. rewrite E1 in H1. rewrite E2 in H2.
  now apply (IH s2 s3).
Qed.

Lemma string_leb_trans (s1 s2 s3 : string) :
  String.leb s1 s2 = true -> String.leb s2 s3 = true ->
  String.leb s1 s3 = true.
Proof.
  unfold String.leb. intros H1 H2.
  pose proof (string_compare_trans s1 s2 s3) as H.
  destruct (String.compare s1 s2), (String.compare s2 s3),
           (String.compare s1 s3);
    try reflexivity; try discriminate; exfalso; apply H; congruence.
Qed.

Lemma comesBefore_before (a b : BindingExpiration) :
  comesBefore a b = true <-> before a b.
Proof.
  unfold comesBefore, before.
  rewrite orb_true_iff, andb_true_iff, Z.ltb_lt, Z.eqb_eq. tauto.
Qed.

Lemma before_total (a b : BindingExpiration) :
  comesBefore a b = false -> before b a.
Proof.
  intros H. unfold before.
  destruct (Z.lt_trichotomy (daysLeft a) (daysLeft b)) as [Hlt | [Heq | Hgt]].
  - assert (comesBefore a b = true) by (apply comesBefore_before; now left).
    congruence.
  - destruct (String.leb_total (expenseName a) (expenseName b)) as [Hl | Hl].
    + assert (comesBefore a b = true)
        by (apply comesBefore_before; right; now split).
      congruence.
    + right. split; [now symmetry | exact Hl].
  - now left.
Qed.

Lemma before_trans (a b c : BindingExpiration) :
  before a b -> before b c -> before a c.
Proof.
  unfold before. intros [H1 | [H1 L1]] [H2 | [H2 L2]]; try (left; lia).
  right. split; [lia | now apply (string_leb_trans _ (expenseName b))].
Qed.

Lemma insertSorted_perm (x : BindingExpiration) (l : list BindingExpiration) :
  Permutation (insertSorted x l) (x :: l).
Proof.
  induction l as [| y rest IH]; cbn [insertSorted]; [reflexivity |].
  destruct (comesBefore x y); [reflexivity |].
  rewrite IH. apply perm_swap.
Qed.

Lemma sortExpirations_perm (l : list BindingExpiration) :
  Permutation (sortExpirations l) l.
Proof.
  induction l as [| x rest IH]; cbn [sortExpirations fold_right];
    [reflexivity |].
  rewrite insertSorted_perm. now apply perm_skip.
Qed.

Lemma insertSorted_sorted (x : BindingExpiration) (l : list BindingExpiration) :
  StronglySorted before l -> StronglySorted before (insertSorted x l).
Proof.
  induction l as [| y rest IH]; cbn [insertSorted]; intros Hs.
  - constructor; [constructor | constructor].
  - inversion Hs as [| ? ? Hrest Hall]; subst.
    destruct (comesBefore x y) eqn:E.
    + constructor; [exact Hs |].
      apply comesBefore_before in E.
      constructor; [exact E |].
      eapply Forall_impl; [| exact Hall].
      intros z Hz. now apply (before_trans x y z).
    + constructor; [now apply IH |].
      rewrite insertSorted_perm.
      constructor; [now apply before_total | exact Hall].
Qed.

Lemma sortExpirations_sorted (l : list BindingExpiration) :
  StronglySorted before (sortExpirations l).
Proof.
  induction l as [| x rest IH]; cbn [sortExpirations fold_right].
  - constructor.
  - now apply insertSorted_sorted.
Qed.

Lemma expirationOf_Some (now : Z) (e : FixedExpense) (r : BindingExpiration) :
  expirationOf now e = Some r
  <-> exists t,
        bindingEndDate e = EndsAt t
        /\ (0 <= daysBetween now t <= 90)%Z
        /\ r = {| expenseId := id e; expenseName := name e; endDate := t;
                  daysLeft := daysBetween now t;
                  monthly := amountPerMonth e |}.
Proof.
  unfold expirationOf, windowDays. split.
  - destruct (bindingEndDate e) as [| text | t]; try discriminate.
    destruct (Z.leb_spec 0 (daysBetween now t)) as [Hlo | Hlo];
      destruct (Z.leb_spec (daysBetween now t) 90) as [Hhi | Hhi];
      cbn [andb]; try discriminate.
    intros Hr. inversion Hr; subst. exists t. repeat split; assumption.
  - intros [t [Hd [[H0 H90] ->]]]. rewrite Hd.
    apply Z.leb_le in H0, H90. now rewrite H0, H90.
Qed.

Lemma candidates_In (now : Z) (expenses : list FixedExpense)
    (r : BindingExpiration) :
  In r (candidates now expenses)
  <-> exists e, In e expenses /\ expirationOf now e = Some r.
Proof.
  induction expenses as [| e rest IH]; cbn [candidates].
  - split; [intros [] | intros [e [[] _]]].
  - destruct (expirationOf now e) as [r0 |] eqn:E; cbn [In]; rewrite IH.
    + split.
      * intros [<- | [e' [Hin He]]]; [exists e | exists e']; auto.
      * intros [e' [[<- | Hin] He]]; [left; congruence | right; eauto].
    + split.
      * intros [e' [Hin He]]. exists e'. auto.
      * intros [e' [[<- | Hin] He]]; [congruence | eauto].
Qed.

Lemma daysBetween_floor (now t : Z) :
  (daysBetween now t * msPerDay <= t - now
   < (daysBetween now t + 1) * msPerDay)%Z.
Proof.
  unfold daysBetween, msPerDay.
  pose proof (Z.div_mod (t - now) 86400000 ltac:(lia)).
  pose proof (Z.mod_pos_bound (t - now) 86400000 ltac:(lia)).
  lia.
Qed.

(** C9: the result holds the record of every expense whose date parses and
    whose days left, the floor of the difference in whole days, fall in
    [0, 90], each as often as it occurs and nothing else; it is ordered by
    days left, then by name. *)
Theorem bindingExpirations_window_sorted
    (now : Z) (expenses : list FixedExpense) :
  Permutation (bindingExpirations now expenses) (candidates now expenses)
  /\ (forall r,
        In r (bindingExpirations now expenses)
        <-> exists e t,
              In e expenses
              /\ bindingEndDate e = EndsAt t
              /\ (0 <= daysBetween now t <= 90)%Z
              /\ r = {| expenseId := id e; expenseName := name e;
                        endDate := t; daysLeft := daysBetween now t;
                        monthly := amountPerMonth e |})
  /\ (forall t,
        (daysBetween now t * msPerDay <= t - now
         < (daysBetween now t + 1) * msPerDay)%Z)
  /\ StronglySorted before (bindingExpirations now expenses).
Proof.
  unfold bindingExpirations.
  split; [apply sortExpirations_perm |].
  split.
  - intros r. split.
    + intros Hin.
      apply (Permutation_in _ (sortExpirations_perm _)) in Hin.
      apply candidates_In in Hin. destruct Hin as [e [Hin He]].
      apply expirationOf_Some in He. destruct He as [t He].
      exists e, t. tauto.
    + intros [e [t [Hin [Hd [Hw Hr]]]]].
      apply (Permutation_in _ (Permutation_sym (sortExpirations_perm _))).
      apply candidates_In. exists e. split; [exact Hin |].
      apply expirationOf_Some. exists t. tauto.
  - split; [apply daysBetween_floor | apply sortExpirations_sorted].
Qed.

End TrackerFacts.

Example sampleExpenses_expirations :
  map (fun r => (Core.expenseName r, Core.daysLeft r))
      (Core.bindingExpirations 0 sampleExpenses)
  = [("Phone", 45%Z); ("Rent", 45%Z)]
  /\ map Core.expenseName
       (Core.bindingExpirations 0 [rent; power; phone; rent])
     = ["Phone"; "Rent"; "Rent"]
  /\ Core.expirationOf 0 power = None
  /\ Core.expirationOf (46 * 86400000) rent = None.
Proof. vm_compute. repeat split. Qed.

Lemma bindingExpirations_window_sorted_witness :
  In {| Core.expenseId := 1; Core.expenseName := "Rent";
        Core.endDate := 45 * 86400000 + 43200000; Core.daysLeft := 45;
        Core.monthly := Core.Dec (100 # 1) |}
     (Core.bindingExpirations 0 sampleExpenses).
Proof.
  destruct (bindingExpirations_window_sorted 0 sampleExpenses)
    as [_ [H _]].
  apply H. exists rent, (45 * 86400000 + 43200000)%Z.
  split; [now left |]. split; [reflexivity |].
  split; [vm_compute; split; discriminate | reflexivity].
Defined.

(** ** The hidden list over a session *)

Lemma toggleUpdater_NoDup (label : string) (current : list string) :
  NoDup current -> NoDup (toggleUpdater label current).
Proof.
  intros Hnd. unfold toggleUpdater.
  destruct (includes current label) eqn:E.
  - now apply NoDup_filter.
  - apply NoDup_app; [exact Hnd | repeat constructor; intros [] |].
    intros c Hc [<- | []]. apply includes_In in Hc. congruence.
Qed.

Lemma handleLegendClick_cases
    (labels : list string) (index : nat) (current : list string) :
  handleLegendClick labels index current = current
  \/ exists label,
       nth_error labels index = Some label /\ label <> ""
       /\ handleLegendClick labels index current = toggleUpdater label current.
Proof.
  unfold handleLegendClick, toggle.
  destruct (nth_error labels index) as [label |]; [| now left].
  destruct (String.eqb_spec label ""); [now left |].
  right. exists label. repeat split; assumption.
Qed.

Lemma filter_id_iff {A : Type} (f : A -> bool) (l : list A) :
  filter f l = l <-> forall x, In x l -> f x = true.
Proof.
  induction l as [| a l IH]; cbn [filter].
  - split; [intros _ x [] | reflexivity].
  - destruct (f a) eqn:E.
    + split.
      * intros H x [<- | Hx]; [exact E |].
        injection H as H. now apply IH.
      * intros H. f_equal. apply IH. intros x Hx. apply H. now right.
    + split.
      * intros H. exfalso.
        assert (Hlen : (List.length (filter f l) <= List.length l)%nat)
          by apply filter_length_le.
        rewrite H in Hlen. cbn [List.length] in Hlen. lia.
      * intros H. specialize (H a (or_introl eq_refl)). congruence.
Qed.

Lemma pruneHiddenCategories_id_iff
    (items : list CategoryTotal) (current : list string) :
  pruneHiddenCategories items current = current
  <-> hiddenWithin items current.
Proof.
  unfold pruneHiddenCategories, hiddenWithin. rewrite filter_id_iff.
  split; intros H c Hc; specialize (H c Hc).
  - apply existsb_exists in H. destruct H as [item [Hin He]].
    apply String.eqb_eq in He. subst. now apply in_map.
  - apply existsb_exists. apply in_map_iff in H.
    destruct H as [item [He Hin]]. exists item.
    split; [exact Hin | now apply String.eqb_eq].
Qed.

(** X1: The pruning leaves the hidden list as it is exactly when every hidden
    label is a category of the totals; in any case it keeps the order, adds
    no repeats, and a second pruning changes nothing. *)
Theorem pruneHiddenCategories_fixpoint
    (items : list CategoryTotal) (current : list string) :
  (pruneHiddenCategories items current = current
   <-> hiddenWithin items current)
  /\ pruneHiddenCategories items (pruneHiddenCategories items current)
     = pruneHiddenCategories items current
  /\ (NoDup current -> NoDup (pruneHiddenCategories items current))
  /\ (List.length (pruneHiddenCategories items current)
      <= List.length current)%nat.
Proof.
  split; [apply pruneHiddenCategories_id_iff |].
  split; [apply pruneHiddenCategories_idempotent | split].
  - intros Hnd. now apply NoDup_filter.
  - apply filter_length_le.
Qed.

Lemma clicks_snoc (labels : list string) (indices : list nat) (index : nat) :
  clicks labels (indices ++ [index])
  = handleLegendClick labels index (clicks labels indices).
Proof. unfold clicks. now rewrite fold_left_app. Qed.

(** X2: After any sequence of legend clicks from the empty hidden list, the
    list has no label twice, does not hold the empty label, holds only
    labels of the chart, and, the labels being the categories of the
    totals, the pruning would not change it. *)
Theorem clicks_keep_hidden_list_clean
    (items : list CategoryTotal) (indices : list nat) :
  let hidden := clicks (map category items) indices in
  NoDup hidden
  /\ ~ In "" hidden
  /\ hiddenWithin items hidden
  /\ pruneHiddenCategories items hidden = hidden.
Proof.
  cbv zeta.
  assert (H : NoDup (clicks (map category items) indices)
              /\ ~ In "" (clicks (map category items) indices)
              /\ hiddenWithin items (clicks (map category items) indices)).
  { induction indices as [| index rest IH] using rev_ind.
    - repeat split; [constructor | intros [] | intros c []].
    - rewrite clicks_snoc. destruct IH as [Hnd [Hne Hin]].
      destruct (handleLegendClick_cases (map category items) index
                  (clicks (map category items) rest))
        as [-> | [label [Hnth [Hlabel ->]]]]; [now repeat split |].
      split; [now apply toggleUpdater_NoDup |]. split.
      + rewrite toggleUpdater_In.
        destruct (includes (clicks (map category items) rest) label).
        * tauto.
        * intros [Hc | Hc]; [contradiction | now elim Hlabel].
      + intros c Hc. apply toggleUpdater_In in Hc.
        destruct (includes (clicks (map category items) rest) label).
        * now apply Hin.
        * destruct Hc as [Hc | ->]; [now apply Hin |].
          now apply nth_error_In in Hnth. }
  destruct H as [Hnd [Hne Hin]]. repeat split; try assumption.
  now apply pruneHiddenCategories_id_iff.
Qed.



(** X3: One click on a label that is not empty: if the label was hidden, its
    items come back beside those already visible; if it was not, its items
    go and the rest of the visible items stay. *)
Theorem visibleCategoryTotals_after_click
    (items : list CategoryTotal) (hidden : list string) (label : string)
    (item : CategoryTotal) :
  label <> "" ->
  In item (visibleCategoryTotals items (toggle label hidden))
  <-> In item items
      /\ (if includes hidden label
          then category item = label \/ ~ In (category item) hidden
          else category item <> label /\ ~ In (category item) hidden).
Proof.
  intros Hlabel. unfold toggle.
  destruct (String.eqb_spec label "") as [-> | _]; [now elim Hlabel |].
  rewrite visibleCategoryTotals_In, toggleUpdater_In.
  destruct (includes hidden label) eqn:E.
  - destruct (String.eqb_spec (category item) label); tauto.
  - tauto.
Qed.

Lemma visibleCategoryTotals_all_hidden (items : list CategoryTotal)
    (hidden : list string) :
  (forall item, In item items -> In (category item) hidden) ->
  visibleCategoryTotals items hidden = [].
Proof.
  intros H. unfold visibleCategoryTotals.
  induction items as [| item rest IH]; [reflexivity |].
  cbn [filter].
  assert (E : includes hidden (category item) = true)
    by (apply includes_In, H; now left).
  rewrite E. cbn [negb]. apply IH. intros it Hit. apply H. now right.
Qed.

(** X4: With categories present and every one of them hidden, nothing is
    visible and the visible fixed total is [0], not the default total that
    a summary without categories shows. *)
Theorem visibleFixedTotal_all_hidden
    (StringToNumber : string -> float)
    (summary : Summary.t) (hidden : list string) :
  fixedCategories summary <> [] ->
  (forall item, In item (fixedCategories summary) ->
                In (category item) hidden) ->
  visibleCategoryTotals (fixedCategories summary) hidden = []
  /\ visibleFixedTotal StringToNumber summary hidden = VNum 0%float.
Proof.
  intros Hne Hall.
  pose proof (visibleCategoryTotals_all_hidden _ _ Hall) as Hnil.
  split; [exact Hnil |].
  rewrite (visibleFixedTotal_nonempty StringToNumber summary hidden Hne).
  now rewrite Hnil.
Qed.

(** X5: Without categories both visible figures pass the supplied ones
    through, whatever the hidden list and the income are. *)
Theorem visible_figures_without_categories
    (StringToNumber : string -> float)
    (summary : Summary.t) (hidden : list string) :
  fixedCategories summary = [] ->
  visibleFixedTotal StringToNumber summary hidden = defaultFixedTotal summary
  /\ visibleFreeAfterFixed StringToNumber summary hidden
     = coalesce (Summary.freeAfterFixed summary) (VNum 0%float)
  /\ visibleCategoryTotals (fixedCategories summary) hidden = [].
Proof.
  intros H. unfold visibleFixedTotal, visibleFreeAfterFixed.
  rewrite H. repeat split.
Qed.

Lemma filter_split_length {A : Type} (f : A -> bool) (l : list A) :
  (List.length (filter f l) + List.length (filter (fun x => negb (f x)) l)
   = List.length l)%nat.
Proof.
  induction l as [| a l IH]; [reflexivity |].
  cbn [filter]. destruct (f a); cbn [negb List.length]; lia.
Qed.

Lemma visible_length_sum (items : list CategoryTotal) (hidden : list string) :
  (List.length (visibleCategoryTotals items hidden)
   + List.length (filter (fun item => includes hidden (category item)) items)
   = List.length items)%nat.
Proof.
  unfold visibleCategoryTotals. rewrite Nat.add_comm.
  apply (filter_split_length (fun item => includes hidden (category item))).
Qed.

Lemma visible_length_all_iff
    (items : list CategoryTotal) (hidden : list string) :
  List.length (visibleCategoryTotals items hidden) = List.length items
  <-> forall item, In item items -> ~ In (category item) hidden.
Proof.
  pose proof (visible_length_sum items hidden) as Hsum. split.
  - intros Hlen item Hin Hhid.
    assert (Hf : In item (filter (fun item => includes hidden (category item))
                                 items)).
    { apply filter_In. split; [exact Hin | now apply includes_In]. }
    destruct (filter (fun item => includes hidden (category item)) items);
      [destruct Hf | cbn [List.length] in Hsum; lia].
  - intros Hnone.
    assert (Hid : visibleCategoryTotals items hidden = items).
    { apply filter_id_iff. intros item Hin. apply negb_true_iff.
      destruct (includes hidden (category item)) eqn:E; [| reflexivity].
      apply includes_In in E. now elim (Hnone item Hin). }
    now rewrite Hid.
Qed.

(** X7: The two numbers of the badge: the visible items and the items of a
    hidden category add up to all items; the counts are equal exactly when
    no item is of a hidden category; and a hidden list that is not empty
    and holds only categories of the totals hides at least one item. *)
Theorem visible_count
    (items : list CategoryTotal) (hidden : list string) :
  (List.length (visibleCategoryTotals items hidden)
   + List.length (filter (fun item => includes hidden (category item)) items)
   = List.length items)%nat
  /\ (List.length (visibleCategoryTotals items hidden) = List.length items
      <-> forall item, In item items -> ~ In (category item) hidden)
  /\ (hidden <> [] -> hiddenWithin items hidden ->
      (List.length (visibleCategoryTotals items hidden)
       < List.length items)%nat).
Proof.
  split; [apply visible_length_sum |].
  split; [apply visible_length_all_iff |].
  intros Hne Hwithin.
  destruct hidden as [| c rest]; [now elim Hne |].
  assert (Hc : In c (map category items)) by (apply Hwithin; now left).
  apply in_map_iff in Hc. destruct Hc as [item [Hcat Hin]].
  assert (Hle : (List.length (visibleCategoryTotals items (c :: rest))
                 <= List.length items)%nat) by apply filter_length_le.
  destruct (Nat.eq_dec (List.length (visibleCategoryTotals items (c :: rest)))
                       (List.length items)) as [Heq | Hneq]; [| lia].
  exfalso.
  apply (proj1 (visible_length_all_iff items (c :: rest)) Heq item Hin).
  rewrite Hcat. now left.
Qed.

Lemma append_not_empty (a b : string) : b <> "" -> (a ++ b)%string <> "".
Proof.
  intros Hb. destruct a; cbn; [exact Hb | discriminate].
Qed.

(** X8: The badge is empty exactly when there are no categories; and when the
    hidden list is not empty but none of its labels is a category of the
    totals, as on the pass before the pruning, the badge still reads
    "n/n kategorier". *)
Theorem categoryBadgeText_cases
    (items : list CategoryTotal) (hidden : list string) :
  (categoryBadgeText items hidden = "" <-> items = [])
  /\ (items <> [] -> hidden <> [] ->
      (forall item, In item items -> ~ In (category item) hidden) ->
      categoryBadgeText items hidden
      = (lengthToString (List.length items) ++ "/"
         ++ lengthToString (List.length items) ++ " kategorier")%string).
Proof.
  unfold categoryBadgeText. split.
  - destruct items as [| item rest]; [now split |].
    split; [| discriminate]. intros H. exfalso. revert H.
    destruct hidden as [| c more]; cbn [List.length Nat.ltb Nat.leb].
    + apply append_not_empty. discriminate.
    + apply append_not_empty, append_not_empty, append_not_empty.
      discriminate.
  - intros Hitems Hhidden Hnone.
    destruct items as [| item rest]; [now elim Hitems |].
    destruct hidden as [| c more]; [now elim Hhidden |].
    cbn [List.length Nat.ltb Nat.leb].
    now rewrite (proj2 (visible_length_all_iff (item :: rest) (c :: more))
                       Hnone).
Qed.

(** ** The chart and the hidden list *)

Lemma syncStep_at (hidden : list string) (chart : (nat -> bool) * bool)
    (index : nat) (label : string) :
  fst (syncStep hidden chart (index, label)) index
  = negb (includes hidden label).
Proof.
  unfold syncStep. cbn [fst snd].
  destruct (includes hidden label), (fst chart index) eqn:E;
    cbn [Bool.eqb fst]; unfold toggleDataVisibility;
    rewrite ?Nat.eqb_refl, ?E; reflexivity.
Qed.

Lemma syncStep_elsewhere (hidden : list string) (chart : (nat -> bool) * bool)
    (index : nat) (label : string) (i : nat) :
  i <> index -> fst (syncStep hidden chart (index, label)) i = fst chart i.
Proof.
  intros Hne. unfold syncStep. cbn [fst snd].
  destruct (Bool.eqb (includes hidden label) (fst chart index));
    [| reflexivity].
  cbn [fst]. unfold toggleDataVisibility.
  apply Nat.eqb_neq in Hne. now rewrite Hne.
Qed.

Lemma syncStep_needsUpdate (hidden : list string)
    (chart : (nat -> bool) * bool) (index : nat) (label : string) :
  snd (syncStep hidden chart (index, label)) = true
  <-> snd chart = true
      \/ fst chart index <> negb (includes hidden label).
Proof.
  destruct chart as [vis upd]. unfold syncStep. cbn [fst snd].
  destruct (includes hidden label), (vis index), upd;
    cbn [Bool.eqb snd negb]; intuition congruence.
Qed.

Lemma syncFrom_cons (hidden : list string) (start : nat) (label : string)
    (rest : list string) (chart : (nat -> bool) * bool) :
  syncFrom hidden start (label :: rest) chart
  = syncFrom hidden (S start) rest (syncStep hidden chart (start, label)).
Proof. reflexivity. Qed.

Lemma syncFrom_spec (hidden : list string) (labels : list string) :
  forall (start : nat) (chart : (nat -> bool) * bool),
    (forall i, (i < start)%nat ->
               fst (syncFrom hidden start labels chart) i = fst chart i)
    /\ (forall i, (start + List.length labels <= i)%nat ->
                  fst (syncFrom hidden start labels chart) i = fst chart i)
    /\ (forall i label,
          nth_error labels i = Some label ->
          fst (syncFrom hidden start labels chart) (start + i)
          = negb (includes hidden label))
    /\ (snd (syncFrom hidden start labels chart) = true
        <-> snd chart = true
            \/ exists i label,
                 nth_error labels i = Some label
                 /\ fst chart (start + i) <> negb (includes hidden label)).
Proof.
  induction labels as [| l rest IH]; intros start chart.
  - unfold syncFrom. cbn [List.length seq combine fold_left].
    repeat split; try reflexivity.
    + intros i label H. destruct i; discriminate H.
    + now left.
    + intros [H | [i [label [H _]]]]; [exact H | destruct i; discriminate H].
  - rewrite syncFrom_cons.
    destruct (IH (S start) (syncStep hidden chart (start, l)))
      as [Hlow [Hhigh [Hat Hupd]]].
    split; [| split; [| split]].
    + intros i Hi. rewrite Hlow by lia. apply syncStep_elsewhere. lia.
    + intros i Hi. cbn [List.length] in Hi.
      rewrite Hhigh by lia. apply syncStep_elsewhere. lia.
    + intros i label Hnth. destruct i as [| i].
      * cbn [nth_error] in Hnth. injection Hnth as ->.
        rewrite Nat.add_0_r, Hlow by lia. apply syncStep_at.
      * cbn [nth_error] in Hnth.
        replace (start + S i)%nat with (S start + i)%nat by lia.
        now apply Hat.
    + rewrite Hupd, syncStep_needsUpdate. split.
      * intros [[H | H] | [i [label [Hnth Hdiff]]]].
        -- now left.
        -- right. exists 0%nat, l. rewrite Nat.add_0_r. now split.
        -- right. exists (S i), label. split; [exact Hnth |].
           rewrite syncStep_elsewhere in Hdiff by lia.
           now replace (start + S i)%nat with (S start + i)%nat by lia.
      * intros [H | [i [label [Hnth Hdiff]]]]; [now left; left |].
        destruct i as [| i].
        -- cbn [nth_error] in Hnth. injection Hnth as ->.
           rewrite Nat.add_0_r in Hdiff. left. now right.
        -- right. exists i, label. cbn [nth_error] in Hnth.
           split; [exact Hnth |].
           rewrite syncStep_elsewhere by lia.
           now replace (S start + i)%nat with (start + S i)%nat by lia.
Qed.

Lemma syncChart_in_line
    (labels hidden : list string) (visible : nat -> bool) :
  chartInLine labels hidden (fst (syncChart labels hidden visible)).
Proof.
  unfold syncChart.
  destruct (syncFrom_spec hidden labels 0 (visible, false))
    as [_ [_ [Hat _]]].
  intros i label Hnth. exact (Hat i label Hnth).
Qed.

Lemma syncChart_needsUpdate_iff
    (labels hidden : list string) (visible : nat -> bool) :
  snd (syncChart labels hidden visible) = false
  <-> chartInLine labels hidden visible.
Proof.
  unfold syncChart, chartInLine.
  destruct (syncFrom_spec hidden labels 0 (visible, false))
    as [_ [_ [_ Hupd]]].
  cbn [fst snd] in Hupd. split.
  - intros Hfalse i label Hnth.
    destruct (bool_dec (visible i) (negb (includes hidden label)))
      as [Heq | Hneq]; [exact Heq |].
    assert (Htrue : snd (syncFrom hidden 0 labels (visible, false)) = true).
    { apply Hupd. right. now exists i, label. }
    congruence.
  - intros Hline.
    destruct (snd (syncFrom hidden 0 labels (visible, false))) eqn:E;
      [| reflexivity].
    destruct (proj1 Hupd eq_refl) as [E' | [i [label [Hnth Hdiff]]]];
      [discriminate E' |].
    elim Hdiff. now apply Hline.
Qed.

(** X9: After the effect the chart shows, on every label, what the hidden list
    says, and the indices past the labels are as they were. *)
Theorem syncChart_brings_chart_in_line
    (labels hidden : list string) (visible : nat -> bool) :
  chartInLine labels hidden (fst (syncChart labels hidden visible))
  /\ (forall i, (List.length labels <= i)%nat ->
                fst (syncChart labels hidden visible) i = visible i).
Proof.
  split; [apply syncChart_in_line |].
  unfold syncChart.
  destruct (syncFrom_spec hidden labels 0 (visible, false))
    as [_ [Hhigh _]].
  intros i Hi. now apply Hhigh.
Qed.

(** X10: The effect calls [chart.update()] exactly when some label of the chart
    is shown otherwise than the hidden list says; run again on its own
    result, it makes no call. *)
Theorem syncChart_updates_only_when_needed
    (labels hidden : list string) (visible : nat -> bool) :
  (snd (syncChart labels hidden visible) = false
   <-> chartInLine labels hidden visible)
  /\ snd (syncChart labels hidden (fst (syncChart labels hidden visible)))
     = false.
Proof.
  split; [apply syncChart_needsUpdate_iff |].
  apply syncChart_needsUpdate_iff, syncChart_in_line.
Qed.

Lemma includes_toggleUpdater (label : string) (current : list string)
    (other : string) :
  includes (toggleUpdater label current) other
  = if String.eqb other label then negb (includes current label)
    else includes current other.
Proof.
  destruct (String.eqb_spec other label) as [-> | Hne].
  - apply toggleUpdater_flips.
  - apply Bool.eq_iff_eq_true. rewrite !includes_In, toggleUpdater_In.
    destruct (includes current label); intuition congruence.
Qed.

(** X11: With labels that are all different and a chart in line with the hidden
    list, a legend click leaves the chart in line with the new hidden list
    by its own toggle: the effect that follows has nothing to update. *)
Theorem legend_click_keeps_chart_in_line
    (labels hidden : list string) (index : nat) (visible : nat -> bool) :
  NoDup labels ->
  chartInLine labels hidden visible ->
  chartInLine labels (handleLegendClick labels index hidden)
              (legendClickChart labels index visible)
  /\ snd (syncChart labels (handleLegendClick labels index hidden)
                    (legendClickChart labels index visible))
     = false.
Proof.
  intros Hnd Hline.
  assert (Hnew : chartInLine labels (handleLegendClick labels index hidden)
                             (legendClickChart labels index visible)).
  { unfold handleLegendClick, legendClickChart, toggle.
    destruct (nth_error labels index) as [label |] eqn:Hnth; [| exact Hline].
    destruct (String.eqb label ""); [exact Hline |].
    intros i other Hi. rewrite includes_toggleUpdater.
    unfold toggleDataVisibility.
    destruct (Nat.eqb_spec i index) as [-> | Hne].
    - rewrite Hnth in Hi. injection Hi as <-.
      rewrite String.eqb_refl. f_equal. now apply Hline.
    - destruct (String.eqb_spec other label) as [-> | _].
      + exfalso. apply Hne.
        apply (proj1 (NoDup_nth_error labels) Hnd i index).
        * apply nth_error_Some. congruence.
        * congruence.
      + now apply Hline. }
  split; [exact Hnew |].
  now apply syncChart_needsUpdate_iff.
Qed.

(** X12: The labels of the chart are the categories of the totals, index by
    index, with as many data points and colours; so a click on the legend
    item of an item toggles the category of that item. *)
Theorem doughnutData_click_toggles_item
    (items : list CategoryTotal) :
  (doughnutData items = None <-> items = [])
  /\ (forall data, doughnutData items = Some data ->
        List.length (dd_labels data) = List.length items
        /\ List.length (dd_data data) = List.length items
        /\ List.length (dd_backgroundColor data) = List.length items
        /\ ~ In VUndefined (dd_backgroundColor data)
        /\ forall index item current,
             nth_error items index = Some item ->
             handleLegendClick (dd_labels data) index current
             = toggle (category item) current).
Proof.
  unfold doughnutData. split.
  - destruct items; cbn [List.length Nat.ltb Nat.leb]; split;
      intros H; try reflexivity; discriminate H.
  - intros data H.
    destruct (0 <? List.length items)%nat; [| discriminate H].
    injection H as <-.
    cbn [dd_labels dd_data dd_backgroundColor].
    rewrite !length_map. repeat split.
    + rewrite in_map_iff. intros [item [Hc _]].
      destruct (color item) as [| | b | x | s]; cbn [truthyValue] in Hc;
        try discriminate Hc.
      * destruct b; discriminate Hc.
      * destruct (truthy x); discriminate Hc.
      * destruct (negb (String.eqb s "")); discriminate Hc.
    + intros index item current Hnth. unfold handleLegendClick.
      now rewrite nth_error_map, Hnth.
Qed.

(** ** The line chart *)

(** X13: Whatever the date and the two figures, the line chart has twelve
    labels and two series of twelve points, each series constant. *)
Theorem lineData_series {Label : Type}
    (fmt : Z -> Z -> Label) (today : Date) (fixed free : value) :
  List.length (ld_labels (lineData (monthlyForecast fmt today fixed free)))
  = 12%nat
  /\ ld_fixedCosts (lineData (monthlyForecast fmt today fixed free))
     = repeat fixed 12
  /\ ld_availableAfterFixed (lineData (monthlyForecast fmt today fixed free))
     = repeat free 12.
Proof. repeat split. Qed.

Lemma monthlyForecast_consecutive_until_28th_witness :
  map label (monthlyForecast pair january15 VNull VNull)
  = map (monthAfter january15) (seq 0 12).
Proof.
  apply (monthlyForecast_consecutive_until_28th january15 VNull VNull).
  cbn. lia.
Defined.

(** ** The owner form *)

Section ObjectFacts.

Context {V : Type}.

Lemma hasOwnProperty_keys (object : list (string * V)) (key : string) :
  hasOwnProperty object key = true <-> In key (map fst object).
Proof.
  unfold hasOwnProperty. rewrite existsb_exists, in_map_iff.
  split; intros [entry [H1 H2]]; exists entry.
  - apply String.eqb_eq in H2. now split.
  - split; [exact H2 | now apply String.eqb_eq].
Qed.

End ObjectFacts.

Section DefineFacts.

Context {V : Type}.

Lemma getProperty_app (k : string) (l1 l2 : list (string * V)) :
  getProperty k (l1 ++ l2)
  = match getProperty k l1 with
    | Some v => Some v
    | None => getProperty k l2
    end.
Proof.
  induction l1 as [| [k0 v0] rest IH]; cbn [app getProperty]; [reflexivity |].
  destruct (String.eqb k0 k); [reflexivity | exact IH].
Qed.

Lemma getProperty_absent (object : list (string * V)) (key : string) :
  hasOwnProperty object key = false -> getProperty key object = None.
Proof.
  unfold hasOwnProperty.
  induction object as [| [k0 v0] rest IH]; cbn [existsb fst getProperty];
    [reflexivity |].
  destruct (String.eqb k0 key); cbn [orb]; [discriminate | exact IH].
Qed.

Lemma hasOwnProperty_app (l1 l2 : list (string * V)) (key : string) :
  hasOwnProperty (l1 ++ l2) key
  = hasOwnProperty l1 key || hasOwnProperty l2 key.
Proof. unfold hasOwnProperty. apply existsb_app. Qed.

Lemma insertIndex_split (n : N) (key : string) (v : V)
    (object : list (string * V)) :
  exists l1 l2,
    object = l1 ++ l2 /\ insertIndex n key v object = l1 ++ (key, v) :: l2.
Proof.
  induction object as [| [k old] rest IH]; cbn [insertIndex].
  - now exists [], [].
  - destruct (arrayIndex k) as [m |];
      [destruct (m <? n)%N |]; try (now exists [], ((k, old) :: rest)).
    destruct IH as [l1 [l2 [H1 H2]]].
    exists ((k, old) :: l1), l2. cbn [app]. now rewrite <- H1, H2.
Qed.

Lemma defineProperty_new (key : string) (v : V) (object : list (string * V)) :
  hasOwnProperty object key = false ->
  exists l1 l2,
    object = l1 ++ l2
    /\ defineProperty key v object = l1 ++ (key, v) :: l2
    /\ (arrayIndex key = None -> l2 = []).
Proof.
  intros Hnew. unfold defineProperty. rewrite Hnew.
  destruct (arrayIndex key) as [n |].
  - destruct (insertIndex_split n key v object) as [l1 [l2 [H1 H2]]].
    exists l1, l2. repeat split; try assumption. discriminate.
  - exists object, []. now rewrite app_nil_r.
Qed.

Lemma updateProperty_keys (key : string) (v : V) (object : list (string * V)) :
  map fst (updateProperty key v object) = map fst object.
Proof.
  induction object as [| [k old] rest IH]; cbn [updateProperty map fst];
    [reflexivity |].
  destruct (String.eqb k key); cbn [map fst]; [reflexivity | now rewrite IH].
Qed.

Lemma getProperty_updateProperty_same (key : string) (v : V)
    (object : list (string * V)) :
  hasOwnProperty object key = true ->
  getProperty key (updateProperty key v object) = Some v.
Proof.
  unfold hasOwnProperty.
  induction object as [| [k old] rest IH];
    cbn [existsb fst updateProperty]; [discriminate |].
  destruct (String.eqb k key) eqn:E; cbn [orb getProperty]; rewrite E;
    [reflexivity | exact IH].
Qed.

Lemma getProperty_updateProperty_other (key other : string) (v : V)
    (object : list (string * V)) :
  other <> key ->
  getProperty other (updateProperty key v object) = getProperty other object.
Proof.
  intros Hne.
  induction object as [| [k old] rest IH]; cbn [updateProperty getProperty];
    [reflexivity |].
  destruct (String.eqb_spec k key) as [-> | Hk]; cbn [getProperty].
  - destruct (String.eqb_spec key other); [congruence | reflexivity].
  - now rewrite IH.
Qed.

Lemma getProperty_defineProperty_same (key : string) (v : V)
    (object : list (string * V)) :
  getProperty key (defineProperty key v object) = Some v.
Proof.
  destruct (hasOwnProperty object key) eqn:E.
  - unfold defineProperty. rewrite E.
    now apply getProperty_updateProperty_same.
  - destruct (defineProperty_new key v object E) as [l1 [l2 [H1 [H2 _]]]].
    rewrite H2, getProperty_app.
    rewrite H1, hasOwnProperty_app in E. apply orb_false_iff in E.
    rewrite (getProperty_absent l1 key (proj1 E)).
    cbn [getProperty]. now rewrite String.eqb_refl.
Qed.

Lemma getProperty_defineProperty_other (key other : string) (v : V)
    (object : list (string * V)) :
  other <> key ->
  getProperty other (defineProperty key v object) = getProperty other object.
Proof.
  intros Hne. destruct (hasOwnProperty object key) eqn:E.
  - unfold defineProperty. rewrite E.
    now apply getProperty_updateProperty_other.
  - destruct (defineProperty_new key v object E) as [l1 [l2 [H1 [H2 _]]]].
    rewrite H2, H1, !getProperty_app. cbn [getProperty].
    destruct (String.eqb_spec key other); [congruence | reflexivity].
Qed.

Lemma keys_defineProperty (key : string) (v : V) (object : list (string * V))
    (k : string) :
  In k (map fst (defineProperty key v object))
  <-> k = key \/ In k (map fst object).
Proof.
  destruct (hasOwnProperty object key) eqn:E.
  - unfold defineProperty. rewrite E, updateProperty_keys.
    apply hasOwnProperty_keys in E. intuition congruence.
  - destruct (defineProperty_new key v object E) as [l1 [l2 [H1 [H2 _]]]].
    rewrite H2, H1, !map_app, !in_app_iff. cbn [map fst In].
    intuition congruence.
Qed.

Lemma NoDup_defineProperty (key : string) (v : V) (object : list (string * V)) :
  NoDup (map fst object) -> NoDup (map fst (defineProperty key v object)).
Proof.
  intros Hnd. destruct (hasOwnProperty object key) eqn:E.
  - unfold defineProperty. now rewrite E, updateProperty_keys.
  - destruct (defineProperty_new key v object E) as [l1 [l2 [H1 [H2 _]]]].
    rewrite H2, map_app. cbn [map fst].
    apply NoDup_Add with (a := key) (l := map fst l1 ++ map fst l2).
    + apply Add_app.
    + rewrite <- map_app, <- H1. split; [exact Hnd |].
      intros Hin. apply hasOwnProperty_keys in Hin. congruence.
Qed.

Lemma length_defineProperty (key : string) (v : V)
    (object : list (string * V)) :
  List.length (defineProperty key v object)
  = if hasOwnProperty object key then List.length object
    else S (List.length object).
Proof.
  destruct (hasOwnProperty object key) eqn:E.
  - unfold defineProperty. rewrite E.
    rewrite <- (length_map fst), updateProperty_keys. apply length_map.
  - destruct (defineProperty_new key v object E) as [l1 [l2 [H1 [H2 _]]]].
    rewrite H2, H1, !length_app. cbn [List.length]. lia.
Qed.

Lemma keyBefore_other (k1 k2 : string) :
  arrayIndex k2 = None -> keyBefore k1 k2.
Proof.
  intros H. unfold keyBefore. rewrite H. now destruct (arrayIndex k1).
Qed.

Lemma insertIndex_order (n : N) (key : string) (v : V)
    (object : list (string * V)) :
  arrayIndex key = Some n ->
  ownKeyOrder object -> ownKeyOrder (insertIndex n key v object).
Proof.
  unfold ownKeyOrder. intros Hkey.
  induction object as [| [k old] rest IH]; cbn [insertIndex]; intros Hs.
  - cbn. constructor; constructor.
  - cbn [map fst] in Hs. inversion Hs as [| ? ? Hrest Hall]; subst.
    rewrite Forall_forall in Hall.
    destruct (arrayIndex k) as [m |] eqn:Ek.
    + destruct (N.ltb_spec m n) as [Hlt | Hge]; cbn [map fst].
      * constructor; [now apply IH |].
        apply Forall_forall. intros x Hx.
        destruct (insertIndex_split n key v rest) as [l1 [l2 [H1 H2]]].
        rewrite H2, map_app, in_app_iff in Hx. cbn [map fst In] in Hx.
        assert (Hx' : x = key \/ In x (map fst rest)).
        { rewrite H1, map_app, in_app_iff. intuition congruence. }
        destruct Hx' as [-> | Hx'].
        -- unfold keyBefore. rewrite Ek, Hkey. lia.
        -- now apply Hall.
      * constructor; [exact Hs |].
        constructor; [unfold keyBefore; rewrite Hkey, Ek; lia |].
        apply Forall_forall. intros x Hx. specialize (Hall x Hx).
        unfold keyBefore in *. rewrite Hkey. rewrite Ek in Hall.
        destruct (arrayIndex x); [lia | exact I].
    + cbn [map fst]. constructor; [exact Hs |].
      constructor; [unfold keyBefore; now rewrite Hkey, Ek |].
      apply Forall_forall. intros x Hx. specialize (Hall x Hx).
      unfold keyBefore in *. rewrite Hkey. rewrite Ek in Hall.
      destruct (arrayIndex x); [contradiction | exact I].
Qed.

Lemma ownKeyOrder_append (key : string) (v : V) (object : list (string * V)) :
  arrayIndex key = None ->
  ownKeyOrder object -> ownKeyOrder (object ++ [(key, v)]).
Proof.
  unfold ownKeyOrder. intros Hkey.
  induction object as [| [k old] rest IH]; cbn [app map fst]; intros Hs.
  - constructor; constructor.
  - inversion Hs as [| ? ? Hrest Hall]; subst.
    constructor; [now apply IH |].
    rewrite map_app. apply Forall_app. split; [exact Hall |].
    constructor; [now apply keyBefore_other | constructor].
Qed.

Lemma ownKeyOrder_defineProperty (key : string) (v : V)
    (object : list (string * V)) :
  ownKeyOrder object -> ownKeyOrder (defineProperty key v object).
Proof.
  intros Hs. unfold defineProperty.
  destruct (hasOwnProperty object key).
  - unfold ownKeyOrder. now rewrite updateProperty_keys.
  - destruct (arrayIndex key) as [n |] eqn:E.
    + now apply insertIndex_order.
    + now apply ownKeyOrder_append.
Qed.

End DefineFacts.

(** X15: A change of one owner's input is what that input shows afterwards; the
    inputs of the other owners show what they showed; no owner comes to
    have two entries, and at most one entry is added. *)
Theorem handleOwnerIncomeChange_updates_one_input
    (owner text : string) (current : list (string * value)) :
  inputValue (handleOwnerIncomeChange owner text current) owner = VStr text
  /\ (forall other, other <> owner ->
        inputValue (handleOwnerIncomeChange owner text current) other
        = inputValue current other)
  /\ (forall k, In k (map fst (handleOwnerIncomeChange owner text current))
                <-> k = owner \/ In k (map fst current))
  /\ (NoDup (map fst current) ->
      NoDup (map fst (handleOwnerIncomeChange owner text current)))
  /\ List.length (handleOwnerIncomeChange owner text current)
     = if hasOwnProperty current owner then List.length current
       else S (List.length current).
Proof.
  unfold handleOwnerIncomeChange, inputValue.
  split; [now rewrite getProperty_defineProperty_same |].
  split; [intros other Hne; now rewrite getProperty_defineProperty_other |].
  split; [intros k; apply keys_defineProperty |].
  split; [apply NoDup_defineProperty | apply length_defineProperty].
Qed.

Section AddOwner.

Variable trim : string -> string.

(** X16: Adding an owner: a blank name changes no input and shows the error; a
    name that is there already keeps its amount; a new name gets an empty
    amount, at its place in the order of the own keys, which is the end
    unless the name is an array index, and the entries that were there keep
    their order; no existing amount is ever changed, no owner comes to have
    two entries, and the order of the own keys is kept. *)
Theorem handleAddOwner_cases (form : OwnerForm) :
  (trim (of_newOwnerName form) = "" ->
   of_ownerInputs (handleAddOwner trim form) = of_ownerInputs form
   /\ of_newOwnerName (handleAddOwner trim form) = of_newOwnerName form
   /\ of_ownerError (handleAddOwner trim form) = "Skriv inn et navn.")
  /\ (trim (of_newOwnerName form) <> "" ->
      hasOwnProperty (of_ownerInputs (handleAddOwner trim form))
                     (trim (of_newOwnerName form)) = true
      /\ of_newOwnerName (handleAddOwner trim form) = ""
      /\ of_ownerError (handleAddOwner trim form) = ""
      /\ (hasOwnProperty (of_ownerInputs form) (trim (of_newOwnerName form))
          = false ->
          getProperty (trim (of_newOwnerName form))
                      (of_ownerInputs (handleAddOwner trim form))
          = Some (VStr "")
          /\ (exists l1 l2,
                of_ownerInputs form = l1 ++ l2
                /\ of_ownerInputs (handleAddOwner trim form)
                   = l1 ++ (trim (of_newOwnerName form), VStr "") :: l2)
          /\ (arrayIndex (trim (of_newOwnerName form)) = None ->
              of_ownerInputs (handleAddOwner trim form)
              = of_ownerInputs form
                ++ [(trim (of_newOwnerName form), VStr "")])))
  /\ (forall k, hasOwnProperty (of_ownerInputs form) k = true ->
        getProperty k (of_ownerInputs (handleAddOwner trim form))
        = getProperty k (of_ownerInputs form))
  /\ (NoDup (map fst (of_ownerInputs form)) ->
      NoDup (map fst (of_ownerInputs (handleAddOwner trim form))))
  /\ (ownKeyOrder (of_ownerInputs form) ->
      ownKeyOrder (of_ownerInputs (handleAddOwner trim form))).
Proof.
  unfold handleAddOwner.
  destruct (String.eqb_spec (trim (of_newOwnerName form)) "") as [Hblank | Hname];
    cbn [of_ownerInputs of_newOwnerName of_ownerError].
  - split; [intros _; repeat split |].
    split; [intros Hc; now elim Hc |].
    split; [reflexivity |]. split; trivial.
  - split; [intros Hc; now elim Hname |].
    destruct (hasOwnProperty (of_ownerInputs form)
                             (trim (of_newOwnerName form))) eqn:E.
    + split; [intros _ |].
      * split; [exact E |]. split; [reflexivity |].
        split; [reflexivity | discriminate].
      * split; [reflexivity |]. split; trivial.
    + destruct (defineProperty_new (trim (of_newOwnerName form)) (VStr "")
                  (of_ownerInputs form) E) as [l1 [l2 [H1 [H2 H3]]]].
      split; [| split; [| split]].
      * intros _. split; [| split; [reflexivity | split; [reflexivity |]]].
        -- apply hasOwnProperty_keys, keys_defineProperty. now left.
        -- intros _. split; [apply getProperty_defineProperty_same |].
           split; [now exists l1, l2 |].
           intros Hidx. rewrite H2, H1, (H3 Hidx). now rewrite app_nil_r.
      * intros k Hk. apply getProperty_defineProperty_other.
        intros ->. congruence.
      * apply NoDup_defineProperty.
      * apply ownKeyOrder_defineProperty.
Qed.

(** X17: An owner just added has an empty amount, which a save leaves out: the
    save after the addition does what the save before it would have done. *)
Theorem handleAddOwner_then_save
    (StringToNumber : string -> float) (NumberToString : float -> string)
    (updateSettings : list Settings.OwnerProfile -> Settings.response)
    (form : OwnerForm) :
  Settings.remaining trim (of_ownerInputs (handleAddOwner trim form))
  = Settings.remaining trim (of_ownerInputs form)
  /\ Settings.handleSaveOwners trim StringToNumber NumberToString
       updateSettings (of_ownerInputs (handleAddOwner trim form))
     = Settings.handleSaveOwners trim StringToNumber NumberToString
         updateSettings (of_ownerInputs form).
Proof.
  assert (H : Settings.remaining trim (of_ownerInputs (handleAddOwner trim form))
              = Settings.remaining trim (of_ownerInputs form)).
  { unfold handleAddOwner.
    destruct (String.eqb (trim (of_newOwnerName form)) "");
      cbn [of_ownerInputs]; [reflexivity |].
    destruct (hasOwnProperty (of_ownerInputs form)
                             (trim (of_newOwnerName form))) eqn:E;
      [reflexivity |].
    destruct (defineProperty_new (trim (of_newOwnerName form)) (VStr "")
                (of_ownerInputs form) E) as [l1 [l2 [H1 [H2 _]]]].
    rewrite H2, H1. unfold Settings.remaining. rewrite !filter_app.
    cbn [filter]. destruct (Settings.hasName trim _); cbn [filter];
      [cbn [Settings.hasValue snd String.eqb negb] |]; reflexivity. }
  split; [exact H |].
  unfold Settings.handleSaveOwners, Settings.buildPayload. now rewrite H.
Qed.

End AddOwner.

(** ** The inputs rebuilt from the service's answer *)



Section RefreshFacts.

Import Settings.

Variable NumberToString : float -> string.







End RefreshFacts.

(** On a sample answer: the profile named [__proto__] leaves no entry, the
    one named [7] comes first, and the second profile of Ola wins. *)
Example refresh_sample :
  Settings.refresh (fun _ => "n")
    [{| Settings.sp_name := "Ola"; Settings.sp_monthlyNetIncome := VStr "1" |};
     {| Settings.sp_name := "__proto__";
        Settings.sp_monthlyNetIncome := VStr "2" |};
     {| Settings.sp_name := "7"; Settings.sp_monthlyNetIncome := VNull |};
     {| Settings.sp_name := ""; Settings.sp_monthlyNetIncome := VStr "3" |};
     {| Settings.sp_name := "Ola"; Settings.sp_monthlyNetIncome := VNum 5%float |}]
  = [("7", ""); ("Ola", "n")].
Proof. reflexivity. Qed.

(** ** The owner names *)

Lemma addName_In (names : list string) (n x : string) :
  In x (addName names n) <-> x = n \/ In x names.
Proof.
  unfold addName. destruct (includes names n) eqn:E.
  - apply includes_In in E. intuition congruence.
  - rewrite in_app_iff. simpl. intuition congruence.
Qed.

Lemma addName_NoDup (names : list string) (n : string) :
  NoDup names -> NoDup (addName names n).
Proof.
  intros Hnd. unfold addName. destruct (includes names n) eqn:E;
    [exact Hnd |].
  apply NoDup_app; [exact Hnd | repeat constructor; intros [] |].
  intros c Hc [<- | []]. apply includes_In in Hc. congruence.
Qed.

Lemma addNamed_In (trim : string -> string)
    (names candidates : list string) (x : string) :
  In x (addNamed trim names candidates)
  <-> In x names \/ (In x candidates /\ trim x <> "").
Proof.
  revert names. induction candidates as [| c rest IH]; intros names.
  - cbn. tauto.
  - unfold addNamed in *. cbn [fold_left]. rewrite IH.
    destruct (String.eqb_spec (trim c) "") as [Hblank | Hname].
    + cbn [In]. split; [tauto |].
      intros [H | [[<- | H] Hx]]; [tauto | contradiction | tauto].
    + rewrite addName_In. cbn [In]. split.
      * intros [[-> | H] | H]; tauto.
      * intros [H | [[<- | H] Hx]]; tauto.
Qed.

Lemma addNamed_NoDup (trim : string -> string)
    (names candidates : list string) :
  NoDup names -> NoDup (addNamed trim names candidates).
Proof.
  revert names. induction candidates as [| c rest IH]; intros names Hnd;
    [exact Hnd |].
  unfold addNamed in *. cbn [fold_left]. apply IH.
  destruct (String.eqb (trim c) ""); [exact Hnd | now apply addName_NoDup].
Qed.

Lemma fold_addName_In (l names : list string) (x : string) :
  In x (fold_left addName l names) <-> In x names \/ In x l.
Proof.
  revert names. induction l as [| c rest IH]; intros names;
    cbn [fold_left In]; [tauto |].
  rewrite IH, addName_In. intuition congruence.
Qed.

Lemma fold_addName_NoDup (l names : list string) :
  NoDup names -> NoDup (fold_left addName l names).
Proof.
  revert names. induction l as [| c rest IH]; intros names Hnd;
    cbn [fold_left]; [exact Hnd |].
  apply IH. now apply addName_NoDup.
Qed.

Section OwnerNames.

Variable trim : string -> string.
Variable sortNames : list string -> list string.
Hypothesis sortNames_permutes : forall l, Permutation (sortNames l) l.

(** X19: The names the owner form lists are, each once: the owners of the
    expenses and the keys of the inputs that are not blank, as they are
    written, and the default owner, trimmed, when it is not blank, whether
    or not it is among the others. *)
Theorem ownerNames_members
    (ownersFromExpenses : list string) (ownerInputs : list (string * value))
    (defaultOwner : string) :
  NoDup (ownerNames trim sortNames ownersFromExpenses ownerInputs defaultOwner)
  /\ forall n,
       In n (ownerNames trim sortNames ownersFromExpenses ownerInputs defaultOwner)
       <-> (trim n <> ""
            /\ (In n ownersFromExpenses \/ In n (map fst ownerInputs)))
           \/ (n = trim defaultOwner /\ n <> "").
Proof.
  unfold ownerNames.
  assert (Hset : NoDup (ownerNameSet trim ownersFromExpenses ownerInputs defaultOwner)
                 /\ forall n,
                      In n (ownerNameSet trim ownersFromExpenses ownerInputs
                                         defaultOwner)
                      <-> (trim n <> ""
                           /\ (In n ownersFromExpenses
                               \/ In n (map fst ownerInputs)))
                          \/ (n = trim defaultOwner /\ n <> "")).
  { unfold ownerNameSet.
    assert (Hnd : NoDup (addNamed trim (addNamed trim [] ownersFromExpenses)
                                  (map fst ownerInputs)))
      by (apply addNamed_NoDup, addNamed_NoDup; constructor).
    destruct (String.eqb_spec (trim defaultOwner) "") as [Hblank | Hname].
    - split; [exact Hnd |]. intros n. rewrite !addNamed_In. cbn [In].
      split; [tauto |].
      intros [H | [-> Hn]]; [tauto | congruence].
    - split; [now apply addName_NoDup |].
      intros n. rewrite addName_In, !addNamed_In. cbn [In].
      split; [intros [-> | H]; tauto | tauto]. }
  destruct Hset as [Hnd Hin]. split.
  - apply (Permutation_NoDup (Permutation_sym (sortNames_permutes _))).
    exact Hnd.
  - intros n. rewrite <- Hin. split.
    + apply Permutation_in, sortNames_permutes.
    + apply Permutation_in, Permutation_sym, sortNames_permutes.
Qed.

(** X20: The owners taken from the expenses are, each once, the names that are
    not empty in the owner lists of the expenses; an expense whose owners
    are not a list gives none. *)
Theorem ownersOfExpenses_members
    (fixedExpenses : list (option (list string))) :
  NoDup (ownersOfExpenses sortNames fixedExpenses)
  /\ forall n,
       In n (ownersOfExpenses sortNames fixedExpenses)
       <-> n <> ""
           /\ exists owners, In (Some owners) fixedExpenses /\ In n owners.
Proof.
  unfold ownersOfExpenses. split.
  - apply (Permutation_NoDup (Permutation_sym (sortNames_permutes _))).
    apply fold_addName_NoDup. constructor.
  - intros n. split.
    + intros H. apply (Permutation_in _ (sortNames_permutes _)) in H.
      apply fold_addName_In in H. destruct H as [[] | H].
      apply filter_In in H. destruct H as [H Hn].
      apply negb_true_iff, String.eqb_neq in Hn. split; [exact Hn |].
      apply in_flat_map in H. destruct H as [[owners |] [He Hin]];
        [now exists owners | destruct Hin].
    + intros [Hn [owners [He Hin]]].
      apply (Permutation_in _ (Permutation_sym (sortNames_permutes _))).
      apply fold_addName_In. right. apply filter_In. split.
      * apply in_flat_map. now exists (Some owners).
      * now apply negb_true_iff, String.eqb_neq.
Qed.

End OwnerNames.

(** ** How a save ends *)

Section SaveOutcome.

Import Settings.

Variable trim : string -> string.
Variable StringToNumber : string -> float.
Variable NumberToString : float -> string.

Lemma messageOr_not_empty (message : string) : messageOr message <> "".
Proof.
  unfold messageOr.
  destruct (String.eqb_spec message ""); [discriminate | assumption].
Qed.

(** X21: A save ends in one of two ways.  Either the payload was built and the
    service call resolved: one call, the inputs rebuilt from the answer, the
    success status.  Or it shows an error text that is not empty, does not
    replace the inputs and does not report success.  Either way the saving
    flag is cleared last. *)
Theorem handleSaveOwners_outcome
    (updateSettings : list OwnerProfile -> response)
    (ownerInputs : list (string * value)) :
  ((exists payload updated,
      buildPayload trim StringToNumber ownerInputs = inr payload
      /\ updateSettings payload = Resolved updated
      /\ handleSaveOwners trim StringToNumber NumberToString
           updateSettings ownerInputs
         = [SetOwnerStatus ""; SetOwnerError ""; SetIsSavingOwners true;
            UpdateSettings payload;
            SetOwnerInputs (refresh NumberToString updated);
            SetOwnerStatus "Lagret personlige inntekter.";
            SetIsSavingOwners false])
   \/ (exists text,
         text <> ""
         /\ In (SetOwnerError text)
               (handleSaveOwners trim StringToNumber NumberToString
                  updateSettings ownerInputs)
         /\ (forall inputs,
               ~ In (SetOwnerInputs inputs)
                    (handleSaveOwners trim StringToNumber NumberToString
                       updateSettings ownerInputs))
         /\ ~ In (SetOwnerStatus "Lagret personlige inntekter.")
                 (handleSaveOwners trim StringToNumber NumberToString
                    updateSettings ownerInputs)))
  /\ last (handleSaveOwners trim StringToNumber NumberToString
             updateSettings ownerInputs)
          (SetIsSavingOwners true)
     = SetIsSavingOwners false.
Proof.
  unfold handleSaveOwners.
  destruct (buildPayload trim StringToNumber ownerInputs) as [message | payload].
  - split; [| reflexivity]. right. exists (messageOr message).
    split; [apply messageOr_not_empty |]. cbn [app In].
    split; [tauto |]. split.
    + intros inputs H. decompose [or] H; try discriminate; assumption.
    + intros H. decompose [or] H; try discriminate; assumption.
  - destruct (updateSettings payload) as [updated | message] eqn:Hanswer.
    + split; [| reflexivity]. left. exists payload, updated.
      repeat split. exact Hanswer.
    + split; [| reflexivity]. right. exists (messageOr message).
      split; [apply messageOr_not_empty |]. cbn [app In].
      split; [tauto |]. split.
      * intros inputs H. decompose [or] H; try discriminate; assumption.
      * intros H. decompose [or] H; try discriminate; assumption.
Qed.

End SaveOutcome.

(** X23: One call is made, with the owner asked for.  What is shown as default
    owner afterwards is what the service answered, not what was asked: the
    answered name, no default when the answer is not a string, and the
    default as it was when the call was rejected, in which case an error
    text that is not empty is shown.  The busy flag is cleared last. *)
Theorem handleSetDefaultOwner_outcome
    (updateSettings : string -> defaultResponse) (owner before : string) :
  (forall o, In (UpdateDefaultOwner o)
                (handleSetDefaultOwner updateSettings owner) <-> o = owner)
  /\ defaultOwnerAfter before (handleSetDefaultOwner updateSettings owner)
     = match updateSettings owner with
       | DefaultResolved (VStr answered) => answered
       | DefaultResolved _ => ""
       | DefaultRejected _ => before
       end
  /\ (forall message,
        updateSettings owner = DefaultRejected message ->
        exists text,
          text <> ""
          /\ In (SetDefaultOwnerError text)
                (handleSetDefaultOwner updateSettings owner))
  /\ last (handleSetDefaultOwner updateSettings owner)
          (SetIsUpdatingDefaultOwner true)
     = SetIsUpdatingDefaultOwner false.
Proof.
  unfold handleSetDefaultOwner.
  destruct (updateSettings owner) as [updated | message];
    cbn [app In defaultOwnerAfter fold_left last].
  - split; [| split; [reflexivity | split; [intros m H; discriminate H
                                             | reflexivity]]].
    intros o. split.
    + intros H. decompose [or] H; try discriminate; try contradiction.
      congruence.
    + intros ->. tauto.
  - split; [| split; [reflexivity | split; [| reflexivity]]].
    + intros o. split.
      * intros H. decompose [or] H; try discriminate; try contradiction.
        congruence.
      * intros ->. tauto.
    + intros m _.
      exists (if String.eqb message ""
              then "Kunne ikke oppdatere standardvisningen." else message).
      split; [| tauto].
      destruct (String.eqb_spec message ""); [discriminate | assumption].
Qed.

(** X24: The import call is made exactly when a file was chosen, its text was
    read and parses, and then with what the text parses to.  A run shows at
    most one status text: exactly one, unless the reading of the file
    fails, which ends the handler before any status is set. *)
Theorem handleImport_calls_only_with_parsed_file {Json : Type}
    (parse : string -> string + Json) (importData : Json -> option string)
    (file : option fileRead) :
  (forall json,
     In (ImportData json) (handleImport parse importData file)
     <-> exists text, file = Some (ReadGives text) /\ parse text = inr json)
  /\ (forall one other,
        In (SetStatus one) (handleImport parse importData file) ->
        In (SetStatus other) (handleImport parse importData file) ->
        one = other)
  /\ ((exists text, In (SetStatus text) (handleImport parse importData file))
      <-> file <> Some ReadFails)
  /\ (file = Some ReadFails -> handleImport parse importData file = []).
Proof.
  unfold handleImport.
  destruct file as [[text |] |].
  - destruct (parse text) as [message | json] eqn:Hparse.
    + split; [| split; [| split]].
      * intros j. cbn [In]. split.
        -- intros [H | []]. discriminate H.
        -- intros [t [Ht Hj]]. injection Ht as <-. congruence.
      * cbn [In]. intros one other [H1 | []] [H2 | []]. congruence.
      * split; [discriminate |]. intros _.
        exists ("Import feilet: " ++ message)%string. now left.
      * discriminate.
    + split; [| split; [| split]].
      * intros j. split.
        -- intros H. exists text. split; [reflexivity |].
           destruct (importData json); cbn [In] in H;
             decompose [or] H; try discriminate; try contradiction;
             congruence.
        -- intros [t [Ht Hj]]. injection Ht as <-.
           rewrite Hparse in Hj. injection Hj as <-. now left.
      * destruct (importData json) as [message |]; cbn [In];
          intros one other H1 H2;
          decompose [or] H1; try discriminate; try contradiction;
          decompose [or] H2; try discriminate; try contradiction;
          congruence.
      * split; [discriminate |]. intros _.
        destruct (importData json) as [message |]; eexists; right; now left.
      * discriminate.
  - split; [| split; [| split]].
    + intros j. cbn [In]. split; [intros [] |].
      intros [t [Ht _]]. discriminate Ht.
    + intros one other [].
    + split; [intros [t []] | intros H; now elim H].
    + reflexivity.
  - split; [| split; [| split]].
    + intros j. cbn [In]. split.
      * intros [H | []]. discriminate H.
      * intros [t [Ht _]]. discriminate Ht.
    + cbn [In]. intros one other [H1 | []] [H2 | []]. congruence.
    + split; [discriminate |]. intros _.
      exists "Velg en fil først.". now left.
    + discriminate.
Qed.

(** ** Theme and install prompt *)

(** X25: The initial theme is always light or dark; a stored light or dark wins
    over the colour scheme of the system, and anything else stored, or
    nothing, follows that scheme. *)
Theorem getInitialTheme_valid
    (hasWindow : bool) (stored : option string) (prefersDark : bool) :
  (getInitialTheme hasWindow stored prefersDark = "light"
   \/ getInitialTheme hasWindow stored prefersDark = "dark")
  /\ (forall s, s = "light" \/ s = "dark" ->
        getInitialTheme true (Some s) prefersDark = s)
  /\ ((forall s, stored = Some s -> s <> "light" /\ s <> "dark") ->
      getInitialTheme true stored prefersDark
      = if prefersDark then "dark" else "light").
Proof.
  unfold getInitialTheme. split; [| split].
  - destruct hasWindow; cbn [negb]; [| now left].
    destruct stored as [s |].
    + destruct (String.eqb_spec s "light") as [-> | _]; [now left |].
      destruct (String.eqb_spec s "dark") as [-> | _]; [now right |].
      cbn [orb]. destruct prefersDark; [now right | now left].
    + destruct prefersDark; [now right | now left].
  - intros s [-> | ->]; reflexivity.
  - intros Hother. cbn [negb]. destruct stored as [s |]; [| reflexivity].
    destruct (Hother s eq_refl) as [Hl Hd].
    apply String.eqb_neq in Hl, Hd. now rewrite Hl, Hd.
Qed.

(** X26: A toggle always gives light or dark, never the theme it started from
    when that was one of the two; two toggles give a light or dark theme
    back; and the theme a toggle gives, once persisted, is the initial theme
    of the next load, whatever the colour scheme of the system. *)
Theorem toggleTheme_round_trip (prev : string) (prefersDark : bool) :
  (toggleTheme prev = "light" \/ toggleTheme prev = "dark")
  /\ (prev = "light" \/ prev = "dark" ->
      toggleTheme prev <> prev /\ toggleTheme (toggleTheme prev) = prev)
  /\ getInitialTheme true (persistTheme (toggleTheme prev)) prefersDark
     = toggleTheme prev.
Proof.
  unfold toggleTheme, persistTheme, getInitialTheme.
  destruct (String.eqb_spec prev "light") as [-> | Hne].
  - repeat split; try (now right); try discriminate.
  - split; [now left |]. split; [| reflexivity].
    intros [-> | ->]; [now elim Hne |]. split; [discriminate | reflexivity].
Qed.

Lemma installStep_keeps_installed (st : InstallState) (e : installEvent) :
  isInstalled st = true -> isInstalled (installStep st e) = true.
Proof.
  intros H. destruct e as [| | accepted]; cbn; try assumption; try reflexivity.
  unfold handleInstallClick.
  destruct (installPromptEvent st); cbn; [| exact H].
  destruct accepted; [reflexivity | exact H].
Qed.

(** X27: A click asks the user exactly when a prompt event is held; an accepted
    choice hides the install button.  Once the app counts as installed, no
    prompt event, install event or click brings the button back. *)
Theorem install_button_flow (st : InstallState) (accepted : bool)
    (events : list installEvent) :
  snd (handleInstallClick accepted st) = installPromptEvent st
  /\ (installPromptEvent st = false ->
      fst (handleInstallClick accepted st) = st)
  /\ (installPromptEvent st = true ->
      showInstallButton (fst (handleInstallClick true st)) = false
      /\ fst (handleInstallClick false st) = st)
  /\ showInstallButton (handleAppInstalled st) = false
  /\ (isInstalled st = true ->
      showInstallButton (fold_left installStep events st) = false).
Proof.
  split; [| split; [| split; [| split]]].
  - unfold handleInstallClick.
    destruct (installPromptEvent st); [now destruct accepted | reflexivity].
  - intros H. unfold handleInstallClick. now rewrite H.
  - intros H. unfold handleInstallClick. rewrite H. now split.
  - reflexivity.
  - intros H.
    assert (Hinst : isInstalled (fold_left installStep events st) = true).
    { revert st H. induction events as [| e rest IH]; intros st H;
        [exact H |].
      cbn [fold_left]. apply IH. now apply installStep_keeps_installed. }
    unfold showInstallButton. now rewrite Hinst.
Qed.

(** ** The added properties on the sample data *)

Lemma visibleCategoryTotals_after_click_witness :
  In catB (visibleCategoryTotals [catA; catB] (toggle "A" [])).
Proof.
  apply (visibleCategoryTotals_after_click [catA; catB] [] "A" catB).
  - discriminate.
  - split; [right; now left |].
    split; [discriminate | intros []].
Defined.

Lemma visibleFixedTotal_all_hidden_witness :
  visibleFixedTotal decimalStringToNumber
    (summaryAB VUndefined VUndefined) ["B"; "A"]
  = VNum 0%float.
Proof.
  apply (visibleFixedTotal_all_hidden decimalStringToNumber
           (summaryAB VUndefined VUndefined) ["B"; "A"]).
  - discriminate.
  - intros item [<- | [<- | []]]; [right; now left | now left].
Defined.

Lemma visible_figures_without_categories_witness :
  visibleFreeAfterFixed decimalStringToNumber
    (summaryOf None (VNum 1000%float) (VNum 200%float)) ["A"]
  = VNum 200%float.
Proof.
  apply (visible_figures_without_categories decimalStringToNumber
           (summaryOf None (VNum 1000%float) (VNum 200%float)) ["A"]).
  reflexivity.
Defined.

Lemma legend_click_keeps_chart_in_line_witness :
  snd (syncChart ["A"; "B"] (handleLegendClick ["A"; "B"] 0 [])
                 (legendClickChart ["A"; "B"] 0 (fun _ => true)))
  = false.
Proof.
  apply (legend_click_keeps_chart_in_line ["A"; "B"] [] 0 (fun _ => true)).
  - constructor; [intros [H | []]; discriminate H |].
    constructor; [intros [] | constructor].
  - intros i label _. reflexivity.
Defined.

Lemma ownerNames_members_witness :
  In "Kari" (ownerNames asciiTrim (fun l => l) ["Ola"; " "] [("Ola", VStr "1")] " Kari ")
  /\ NoDup (ownerNames asciiTrim (fun l => l) ["Ola"; " "] [("Ola", VStr "1")] " Kari ").
Proof.
  destruct (ownerNames_members asciiTrim (fun l => l)
              (fun l => Permutation_refl l)
              ["Ola"; " "] [("Ola", VStr "1")] " Kari ") as [Hnd Hin].
  split; [| exact Hnd].
  apply Hin. right. split; [reflexivity | discriminate].
Defined.

Lemma ownersOfExpenses_members_witness :
  In "Ola" (ownersOfExpenses (fun l => l)
              [Some ["Kari"; ""]; None; Some ["Ola"; "Kari"]]).
Proof.
  destruct (ownersOfExpenses_members (fun l => l)
              (fun l => Permutation_refl l)
              [Some ["Kari"; ""]; None; Some ["Ola"; "Kari"]]) as [_ Hin].
  apply Hin. split; [discriminate |].
  exists ["Ola"; "Kari"]. split; [right; right; now left | now left].
Defined.

Example owner_form_sample :
  ownerNames asciiTrim (fun l => l) ["Ola"; " "] [("Ola", VStr "1")] " Kari "
  = ["Ola"; "Kari"]
  /\ ownersOfExpenses (fun l => l)
       [Some ["Kari"; ""]; None; Some ["Ola"; "Kari"]]
     = ["Kari"; "Ola"]
  /\ categoryBadgeText [catA; catB] ["A"] = "1/2 kategorier"
  /\ categoryBadgeText [catA; catB] [] = "2 kategorier"
  /\ categoryBadgeText [catB] ["A"] = "1/1 kategorier".
Proof. repeat split. Qed.

(** ** What a save sends *)

Section PayloadFacts.

Import Settings.

Variable trim : string -> string.
Variable StringToNumber : string -> float.

Lemma mapProfiles_inr (entries : list (string * value))
    (payload : list OwnerProfile) :
  mapProfiles trim StringToNumber entries = inr payload ->
  payload = map (profileOf trim StringToNumber) entries
  /\ forall entry, In entry entries ->
                   invalidValue StringToNumber (snd entry) = false.
Proof.
  revert payload. induction entries as [| entry rest IH]; intros payload H.
  - cbn [mapProfiles] in H. injection H as <-.
    split; [reflexivity | intros e []].
  - cbn [mapProfiles] in H. rewrite toProfile_cases in H.
    destruct (invalidValue StringToNumber (snd entry)) eqn:E;
      [discriminate H |].
    destruct (mapProfiles trim StringToNumber rest) as [message | profiles];
      [discriminate H |].
    injection H as <-. destruct (IH profiles eq_refl) as [-> Hok].
    split; [reflexivity |].
    intros e [<- | He]; [exact E | now apply Hok].
Qed.

(** X22: Whatever payload a save builds, every profile in it comes from an
    input entry with a name that is not blank and a value that is not
    empty, carries that name trimmed, and an income that is a finite number
    and not negative. *)
Theorem buildPayload_profiles_are_valid
    (ownerInputs : list (string * value)) (payload : list OwnerProfile)
    (profile : OwnerProfile) :
  buildPayload trim StringToNumber ownerInputs = inr payload ->
  In profile payload ->
  name profile <> ""
  /\ isFinite (monthlyNetIncome profile) = true
  /\ (monthlyNetIncome profile <? 0)%float = false
  /\ exists owner v,
       In (owner, v) ownerInputs
       /\ v <> VStr "" /\ v <> VNull /\ v <> VUndefined
       /\ name profile = trim owner
       /\ monthlyNetIncome profile = ToNumber StringToNumber v.
Proof.
  unfold buildPayload. intros Hbuild Hin.
  destruct (mapProfiles_inr _ _ Hbuild) as [-> Hok].
  apply in_map_iff in Hin. destruct Hin as [[owner v] [<- Hentry]].
  pose proof (Hok _ Hentry) as Hvalid.
  unfold remaining in Hentry. rewrite !filter_In in Hentry.
  destruct Hentry as [[Hmem Hname] Hvalue].
  unfold invalidValue in Hvalid. cbn [snd] in Hvalid.
  apply orb_false_iff in Hvalid. destruct Hvalid as [Hfin Hneg].
  apply negb_false_iff in Hfin.
  unfold hasName in Hname. cbn [fst] in Hname.
  apply negb_true_iff, String.eqb_neq in Hname.
  cbn [profileOf name monthlyNetIncome fst snd].
  split; [exact Hname |]. split; [exact Hfin |]. split; [exact Hneg |].
  exists owner, v. split; [exact Hmem |].
  unfold hasValue in Hvalue. cbn [snd] in Hvalue.
  repeat split; try reflexivity; intros ->; discriminate Hvalue.
Qed.

End PayloadFacts.

Lemma buildPayload_profiles_are_valid_witness :
  Settings.name {| Settings.name := "Ola";
                   Settings.monthlyNetIncome := 30000%float |} <> ""
  /\ isFinite 30000%float = true.
Proof.
  destruct (buildPayload_profiles_are_valid asciiTrim decimalStringToNumber
              ownerInputsGood
              [{| Settings.name := "Ola";
                  Settings.monthlyNetIncome := 30000%float |}]
              {| Settings.name := "Ola";
                 Settings.monthlyNetIncome := 30000%float |}
              eq_refl (or_introl eq_refl)) as [Hname [Hfinite _]].
  split; [exact Hname | exact Hfinite].
Defined.

(** On sample objects: which names are array indices, and where a new
    owner lands among the entries. *)
Example arrayIndex_sample :
  map arrayIndex ["0"; "7"; "07"; "4294967294"; "4294967295"; "-1"; "Ola"; ""]
  = [Some 0%N; Some 7%N; None; Some 4294967294%N; None; None; None; None].
Proof. reflexivity. Qed.

Example handleAddOwner_sample :
  of_ownerInputs
    (handleAddOwner asciiTrim
       {| of_ownerInputs := [("3", VStr "1"); ("Ola", VStr "2")];
          of_newOwnerName := " 7 "; of_ownerStatus := "";
          of_ownerError := "" |})
  = [("3", VStr "1"); ("7", VStr ""); ("Ola", VStr "2")]
  /\ of_ownerInputs
       (handleAddOwner asciiTrim
          {| of_ownerInputs := [("3", VStr "1"); ("Ola", VStr "2")];
             of_newOwnerName := "Kari"; of_ownerStatus := "";
             of_ownerError := "" |})
     = [("3", VStr "1"); ("Ola", VStr "2"); ("Kari", VStr "")]
  /\ of_ownerInputs
       (handleAddOwner asciiTrim
          {| of_ownerInputs := [("Ola", VStr "2")];
             of_newOwnerName := "Ola "; of_ownerStatus := "";
             of_ownerError := "" |})
     = [("Ola", VStr "2")].
Proof. repeat split. Qed.
